(** * Canaria: ingestion, storage and fan-out engine

  A shallow embedding of the server side of Canaria (the TypeScript
  sources under [packages/api/src]) together with the properties of its
  event store, rate limiter, sync handshake, feed connectors, health
  check, metrics rollup, signer and ingest pipeline.

  Conventions.
  - JavaScript numbers that are integers by construction (unix seconds,
    counters, HTTP statuses, millisecond delays) are [Z]; numbers that
    come out of [JSON.parse] are finite and are [Q].
  - Strings are byte strings ([string]); a JavaScript string is
    represented by its UTF-8 encoding.
  - [Date.now()] is an explicit argument of every function that reads
    the clock.
  - SQL tables are finite maps keyed by their primary key ([gmap]), or
    lists of rows in rowid order when the table has no key or when the
    order of the rows matters. *)

From Stdlib Require Import ZArith QArith Ascii String List Lia Bool.
From Stdlib Require Import DecimalString Sorted Permutation.
From stdpp Require Import gmap strings list.
Import ListNotations.

Set Warnings "-register-all".
Local Open Scope string_scope.
Local Open Scope Z_scope.

(** ** Host runtime *)

Module JS.

(** Completion of a call that may throw. *)
Inductive Completion (A : Type) : Type :=
| Normal (a : A)
| Throw (reason : string).
Arguments Normal {A} a.
Arguments Throw {A} reason.

Definition bind {A B} (c : Completion A) (k : A -> Completion B) : Completion B :=
  match c with
  | Normal a => k a
  | Throw e => Throw e
  end.

Definition throws {A} (c : Completion A) : bool :=
  match c with Normal _ => false | Throw _ => true end.

(** [String(n)] for an integer [n] (plain decimal below 1e21). *)
Definition String_of_Z (n : Z) : string :=
  NilZero.string_of_int (Z.to_int n).

(** Values that [JSON.parse] produces and [JSON.stringify] consumes. *)
Inductive json : Type :=
| JNull
| JBool (b : bool)
| JNum (q : Q)
| JStr (s : string)
| JArr (items : list json)
| JObj (fields : list (string * json)).

Definition quote_char : ascii := "034"%char.
Definition backslash : ascii := "092"%char.

Definition hex_digit (n : N) : ascii :=
  match n with
  | 0 => "0" | 1 => "1" | 2 => "2" | 3 => "3" | 4 => "4" | 5 => "5"
  | 6 => "6" | 7 => "7" | 8 => "8" | 9 => "9" | 10 => "a" | 11 => "b"
  | 12 => "c" | 13 => "d" | 14 => "e" | _ => "f"
  end%N%char.

(** One code unit of [QuoteJSONString]. *)
Definition escape_char (c : ascii) : string :=
  let n := N_of_ascii c in
  if (n =? 34)%N then String backslash (String quote_char EmptyString)
  else if (n =? 92)%N then String backslash (String backslash EmptyString)
  else if (n =? 8)%N then String backslash "b"
  else if (n =? 9)%N then String backslash "t"
  else if (n =? 10)%N then String backslash "n"
  else if (n =? 12)%N then String backslash "f"
  else if (n =? 13)%N then String backslash "r"
  else if (n <? 32)%N then
    String backslash
      (String "u" (String "0" (String "0"
         (String (hex_digit (n / 16)) (String (hex_digit (n mod 16)) EmptyString)))))
  else String c EmptyString.

Fixpoint escape_string (s : string) : string :=
  match s with
  | EmptyString => EmptyString
  | String c rest => escape_char c ++ escape_string rest
  end.

Definition quote_string (s : string) : string :=
  String quote_char (escape_string s ++ String quote_char EmptyString).

Fixpoint join (sep : string) (parts : list string) : string :=
  match parts with
  | [] => EmptyString
  | [p] => p
  | p :: rest => p ++ sep ++ join sep rest
  end.

Section Stringify.
(** [Number::toString] on a finite number. *)
Variable Number_toString : Q -> string.

Fixpoint JSON_stringify (v : json) : string :=
  match v with
  | JNull => "null"
  | JBool true => "true"
  | JBool false => "false"
  | JNum q => Number_toString q
  | JStr s => quote_string s
  | JArr items => "[" ++ join "," (List.map JSON_stringify items) ++ "]"
  | JObj fields =>
      "{" ++ join ","
               (List.map (fun kv => quote_string (fst kv) ++ ":" ++ JSON_stringify (snd kv))
                         fields)
          ++ "}"
  end.
End Stringify.

(** [btoa(String.fromCharCode(...bytes))]. *)
Definition b64_alphabet : list ascii :=
  list_ascii_of_string
    "ABCDEFGHIJKLMNOPQRSTUVWXYZabcdefghijklmnopqrstuvwxyz0123456789+/".

Definition b64_char (i : Z) : ascii :=
  nth (Z.to_nat i) b64_alphabet "="%char.

Fixpoint btoa (bytes : list Z) : string :=
  match bytes with
  | [] => EmptyString
  | [a] =>
      String (b64_char (Z.shiftr a 2))
        (String (b64_char (Z.shiftl (Z.land a 3) 4)) "==")
  | [a; b] =>
      String (b64_char (Z.shiftr a 2))
        (String (b64_char (Z.lor (Z.shiftl (Z.land a 3) 4) (Z.shiftr b 4)))
           (String (b64_char (Z.shiftl (Z.land b 15) 2)) "="))
  | a :: b :: c :: rest =>
      String (b64_char (Z.shiftr a 2))
        (String (b64_char (Z.lor (Z.shiftl (Z.land a 3) 4) (Z.shiftr b 4)))
           (String (b64_char (Z.lor (Z.shiftl (Z.land b 15) 2) (Z.shiftr c 6)))
              (String (b64_char (Z.land c 63)) (btoa rest))))
  end.

(** [new TextEncoder().encode(s)]: the UTF-8 bytes of [s]. *)
Definition TextEncoder_encode (s : string) : list Z :=
  List.map (fun c => Z.of_N (N_of_ascii c)) (list_ascii_of_string s).

(** The built-ins of the host that the sources call and that are not
    spelled out here: number formatting and parsing, [Date], and the
    Ed25519 operations of [crypto.subtle]. Ed25519 signatures are a
    function of key and message (RFC 8032). *)
Class Host : Type := {
  Number_toString : Q -> string;
  (** [Number(s)] when the result is finite. *)
  Number_ofString : string -> option Q;
  (** [new Date(s).toISOString()], [None] for an invalid date. *)
  Date_normalize : string -> option string;
  (** [new Date(ms).toISOString()]. *)
  Date_toISOString : Z -> string;
  (** [new Date(s).getTime()], [None] for NaN. *)
  Date_getTime : string -> option Z;
  CryptoKey : Type;
  Ed25519_importKey : string -> CryptoKey;
  Ed25519_sign : CryptoKey -> list Z -> list Z
}.

(** A host to run examples on. Integers print as JavaScript prints
    them; the signature is a stand-in, not Ed25519. *)
Definition exampleHost : Host := {|
  Number_toString q :=
    if (Qden q =? 1)%positive then String_of_Z (Qnum q)
    else String_of_Z (Qnum q) ++ "/" ++ String_of_Z (Zpos (Qden q));
  Number_ofString _ := None;
  Date_normalize s := Some s;
  Date_toISOString ms := String_of_Z ms;
  Date_getTime _ := None;
  CryptoKey := string;
  Ed25519_importKey d := d;
  Ed25519_sign key msg := List.map (fun b => Z.lxor b 90) (TextEncoder_encode key ++ msg)%list
|}.

(** The time values a [Date] can hold: at most 8.64e15 ms either side
    of the epoch. *)
Definition MAX_TIME_VALUE : Z := 8640000000000000.

(** [new Date(ms).toISOString()] for any number of milliseconds:
    outside the range the date is invalid and [toISOString] throws. *)
Definition toISOString {host : Host} (ms : Z) : Completion string :=
  if Z.abs ms <=? MAX_TIME_VALUE then Normal (Date_toISOString ms)
  else Throw "RangeError: Invalid time value".

(** The last [width] decimal digits of [n], with leading zeros. *)
Fixpoint pad (width : nat) (n : Z) : string :=
  match width with
  | O => ""
  | S w => pad w (n / 10) ++ String (ascii_of_N (48 + Z.to_N (n mod 10))) ""
  end.

(** The civil date of a day number counted from 1970-01-01, in the
    proleptic Gregorian calendar. *)
Definition civil_from_days (days : Z) : Z * Z * Z :=
  let z := days + 719468 in
  let era := z / 146097 in
  let doe := z - era * 146097 in
  let yoe := (doe - doe / 1460 + doe / 36524 - doe / 146096) / 365 in
  let doy := doe - (365 * yoe + yoe / 4 - yoe / 100) in
  let mp := (5 * doy + 2) / 153 in
  let d := doy - (153 * mp + 2) / 5 + 1 in
  let m := if mp <? 10 then mp + 3 else mp - 9 in
  let y := yoe + era * 400 + (if m <=? 2 then 1 else 0) in
  (y, m, d).

(** The ISO 8601 text of a time value, as [toISOString] writes it:
    four digits for the years 0 to 9999, a sign and six digits otherwise. *)
Definition iso_of_ms (ms : Z) : string :=
  let '(y, m, d) := civil_from_days (ms / 86400000) in
  let r := ms mod 86400000 in
  (if (0 <=? y) && (y <=? 9999) then pad 4 y
   else (if y <? 0 then "-" else "+") ++ pad 6 (Z.abs y))
  ++ "-" ++ pad 2 m ++ "-" ++ pad 2 d
  ++ "T" ++ pad 2 (r / 3600000) ++ ":" ++ pad 2 (r / 60000 mod 60)
  ++ ":" ++ pad 2 (r / 1000 mod 60) ++ "." ++ pad 3 (r mod 1000) ++ "Z".

(** The example host with dates written out. *)
Definition isoHost : Host := {|
  Number_toString := @Number_toString exampleHost;
  Number_ofString := @Number_ofString exampleHost;
  Date_normalize := @Date_normalize exampleHost;
  Date_toISOString := iso_of_ms;
  Date_getTime := @Date_getTime exampleHost;
  CryptoKey := @CryptoKey exampleHost;
  Ed25519_importKey := @Ed25519_importKey exampleHost;
  Ed25519_sign := @Ed25519_sign exampleHost
|}.

End JS.
(** ** Shared data types ([@canaria/types]) *)

Module Types.

Inductive EventSource : Type := KMA | JMA | P2PQUAKE.

(** [reportType: string | number | null]. *)
Inductive ReportType : Type :=
| ReportNumber (n : Q)
| ReportString (s : string).

Record EventRecord : Type := {
  eventId : string;
  source : EventSource;
  type : string;
  reportType : option ReportType;
  time : string;
  issueTime : option string;
  receiveTime : string;
  receiveSource : string;
  latitude : option Q;
  longitude : option Q;
  magnitude : option Q;
  depth : option Q;
  intensity : option Q;
  region : option string;
  advisory : option string;
  revision : option string
}.

Record HeartbeatStats : Type := {
  totalParses : Q;
  successfulParses : Q;
  failedParses : Q;
  eventsIngested : Q;
  averageDelayMs : Q;
  uptime : Q
}.

Record Heartbeat : Type := {
  kmaConnection : bool;
  lastParseTime : string;
  lastEventTime : option string;
  delayMs : Q;
  error : option string;
  stats : option HeartbeatStats
}.

Inductive FeedStatus : Type := connecting | connected | disconnected.

(** Timestamps written with [new Date().toISOString()] are kept as the
    epoch milliseconds they denote. *)
Record FeedState : Type := {
  status : FeedStatus;
  lastMessage : option Z;
  lastError : option string;
  connectedAt : option Z;
  disconnectedAt : option Z;
  reconnectCount : Z;
  totalUptime : Z;
  lastHeartbeat : option Z
}.

Definition FeedStatus_eqb (a b : FeedStatus) : bool :=
  match a, b with
  | connecting, connecting | connected, connected | disconnected, disconnected => true
  | _, _ => false
  end.

Definition source_name (s : EventSource) : string :=
  match s with KMA => "KMA" | JMA => "JMA" | P2PQUAKE => "P2PQUAKE" end.

Definition json_opt_string (o : option string) : JS.json :=
  match o with Some s => JS.JStr s | None => JS.JNull end.

Definition json_opt_number (o : option Q) : JS.json :=
  match o with Some q => JS.JNum q | None => JS.JNull end.

(** The JavaScript object an [EventRecord] stands for, properties in
    the order the normalizers create them. *)
Definition EventRecord_json (ev : EventRecord) : JS.json :=
  JS.JObj
    [ ("eventId", JS.JStr (eventId ev));
      ("source", JS.JStr (source_name (source ev)));
      ("type", JS.JStr (type ev));
      ("reportType",
        match reportType ev with
        | Some (ReportNumber n) => JS.JNum n
        | Some (ReportString s) => JS.JStr s
        | None => JS.JNull
        end);
      ("time", JS.JStr (time ev));
      ("issueTime", json_opt_string (issueTime ev));
      ("receiveTime", JS.JStr (receiveTime ev));
      ("receiveSource", JS.JStr (receiveSource ev));
      ("latitude", json_opt_number (latitude ev));
      ("longitude", json_opt_number (longitude ev));
      ("magnitude", json_opt_number (magnitude ev));
      ("depth", json_opt_number (depth ev));
      ("intensity", json_opt_number (intensity ev));
      ("region", json_opt_string (region ev));
      ("advisory", json_opt_string (advisory ev));
      ("revision", json_opt_string (revision ev)) ].

End Types.

(** ** Feed connectors ([feeds.ts], class [WebSocketConnector]) *)

Module Connector.
Import Types.

Definition BASE_BACKOFF_MS : Z := 2000.
Definition MAX_BACKOFF_MS : Z := 60000.
Definition INACTIVITY_TIMEOUT_MS : Z := 120000.
Definition PING_INTERVAL_MS : Z := 30000.

(** What a connector does to the outside: the state snapshots it hands
    to [onStateChange], the timers it arms, the sockets it creates and
    closes, and the data it hands to [onMessage]. *)
Inductive Effect : Type :=
| StateChanged (s : FeedState)
| ReconnectIn (delay : Z)
| SocketCreated
| SocketClosed
| InactivityArmed (delay : Z)
| PingArmed (interval : Z)
| Delivered (data : JS.json).

Record WebSocketConnector : Type := {
  socket : bool;
  reconnectTimer : option Z;
  inactivityTimer : bool;
  pingTimer : bool;
  backoff : Z;
  state : FeedState
}.

Definition initial_state : FeedState :=
  {| status := connecting; lastMessage := None; lastError := None;
     connectedAt := None; disconnectedAt := None; reconnectCount := 0;
     totalUptime := 0; lastHeartbeat := None |}.

Definition new_WebSocketConnector : WebSocketConnector :=
  {| socket := false; reconnectTimer := None; inactivityTimer := false;
     pingTimer := false; backoff := BASE_BACKOFF_MS; state := initial_state |}.

Definition with_state (c : WebSocketConnector) (s : FeedState) : WebSocketConnector :=
  {| socket := socket c; reconnectTimer := reconnectTimer c;
     inactivityTimer := inactivityTimer c; pingTimer := pingTimer c;
     backoff := backoff c; state := s |}.

(** [updateState(partial)]: merge, then notify. The notification is
    recorded as an effect and taken to return: an [onStateChange] that
    throws would abort the caller after the state is written, so that
    the caller's later steps (arming a timer, scheduling a reconnect)
    are left out. The model covers the runs in which the callback
    returns. *)
Definition updateState (f : FeedState -> FeedState) (c : WebSocketConnector)
  : WebSocketConnector * list Effect :=
  let s := f (state c) in (with_state c s, [StateChanged s]).

Definition scheduleReconnect (c : WebSocketConnector) : WebSocketConnector * list Effect :=
  match reconnectTimer c with
  | Some _ => (c, [])
  | None =>
      let delay := backoff c in
      ({| socket := socket c; reconnectTimer := Some delay;
          inactivityTimer := inactivityTimer c; pingTimer := pingTimer c;
          backoff := Z.min (backoff c * 2) MAX_BACKOFF_MS; state := state c |},
       [ReconnectIn delay])
  end.

Definition cleanupSocket (c : WebSocketConnector) : WebSocketConnector * list Effect :=
  ({| socket := false; reconnectTimer := reconnectTimer c;
      inactivityTimer := false; pingTimer := false;
      backoff := backoff c; state := state c |},
   if socket c then [SocketClosed] else []).

Definition resetInactivityTimer (c : WebSocketConnector) : WebSocketConnector * list Effect :=
  ({| socket := socket c; reconnectTimer := reconnectTimer c;
      inactivityTimer := true; pingTimer := pingTimer c;
      backoff := backoff c; state := state c |},
   [InactivityArmed INACTIVITY_TIMEOUT_MS]).

Definition armPing (c : WebSocketConnector) : WebSocketConnector * list Effect :=
  if pingTimer c then (c, [])
  else
    ({| socket := socket c; reconnectTimer := reconnectTimer c;
        inactivityTimer := inactivityTimer c; pingTimer := true;
        backoff := backoff c; state := state c |},
     [PingArmed PING_INTERVAL_MS]).

(** Sequencing of two steps, effects in order. *)
Definition andThen (r : WebSocketConnector * list Effect)
    (k : WebSocketConnector -> WebSocketConnector * list Effect)
  : WebSocketConnector * list Effect :=
  let (c', out') := k (fst r) in (c', (snd r ++ out')%list).

Notation "r >>> k" := (andThen r k) (at level 50, left associativity).

Definition set_status (st : FeedStatus) (s : FeedState) : FeedState :=
  {| status := st; lastMessage := lastMessage s; lastError := lastError s;
     connectedAt := connectedAt s; disconnectedAt := disconnectedAt s;
     reconnectCount := reconnectCount s; totalUptime := totalUptime s;
     lastHeartbeat := lastHeartbeat s |}.

Definition set_lastError (e : option string) (s : FeedState) : FeedState :=
  {| status := status s; lastMessage := lastMessage s; lastError := e;
     connectedAt := connectedAt s; disconnectedAt := disconnectedAt s;
     reconnectCount := reconnectCount s; totalUptime := totalUptime s;
     lastHeartbeat := lastHeartbeat s |}.

(** [handleClose(reason)] at clock reading [now]. *)
Definition handleClose (reason : string) (now : Z) (c : WebSocketConnector)
  : WebSocketConnector * list Effect :=
  let s := state c in
  let total :=
    match connectedAt s with
    | Some t => if FeedStatus_eqb (status s) connected
                then totalUptime s + (now - t) else totalUptime s
    | None => totalUptime s
    end in
  let s1 :=
    {| status := status s; lastMessage := lastMessage s; lastError := lastError s;
       connectedAt := connectedAt s; disconnectedAt := disconnectedAt s;
       reconnectCount := reconnectCount s; totalUptime := total;
       lastHeartbeat := lastHeartbeat s |} in
  cleanupSocket (with_state c s1)
  >>> updateState (fun s =>
        {| status := disconnected; lastMessage := lastMessage s;
           lastError := Some reason; connectedAt := connectedAt s;
           disconnectedAt := Some now; reconnectCount := reconnectCount s;
           totalUptime := totalUptime s; lastHeartbeat := lastHeartbeat s |})
  >>> scheduleReconnect.

(** [connect()]; [ctor] is what [new WebSocket(url)] does. *)
Definition connect (ctor : JS.Completion unit) (c : WebSocketConnector)
  : WebSocketConnector * list Effect :=
  match ctor with
  | JS.Normal _ =>
      updateState (set_status connecting) c
      >>> (fun c =>
             ({| socket := true; reconnectTimer := reconnectTimer c;
                 inactivityTimer := inactivityTimer c; pingTimer := pingTimer c;
                 backoff := backoff c; state := state c |}, [SocketCreated]))
  | JS.Throw e =>
      updateState (set_status connecting) c
      >>> updateState (fun s => set_lastError (Some e) (set_status disconnected s))
      >>> scheduleReconnect
  end.

(** The [open] listener. *)
Definition onOpen (now : Z) (c : WebSocketConnector) : WebSocketConnector * list Effect :=
  let c1 :=
    {| socket := socket c; reconnectTimer := reconnectTimer c;
       inactivityTimer := inactivityTimer c; pingTimer := pingTimer c;
       backoff := BASE_BACKOFF_MS; state := state c |} in
  updateState (fun s =>
    {| status := connected; lastMessage := lastMessage s; lastError := None;
       connectedAt := Some now; disconnectedAt := disconnectedAt s;
       reconnectCount :=
         match disconnectedAt s with
         | Some _ => reconnectCount s + 1
         | None => reconnectCount s
         end;
       totalUptime := totalUptime s; lastHeartbeat := Some now |}) c1
  >>> armPing
  >>> resetInactivityTimer.

(** The [message] listener; [data] is the outcome of [safeJson] followed
    by the connector's [onMessage] callback. *)
Definition onMessage (now : Z) (data : JS.Completion JS.json) (c : WebSocketConnector)
  : WebSocketConnector * list Effect :=
  updateState (fun s =>
    {| status := status s; lastMessage := Some now; lastError := None;
       connectedAt := connectedAt s; disconnectedAt := disconnectedAt s;
       reconnectCount := reconnectCount s; totalUptime := totalUptime s;
       lastHeartbeat := Some now |}) c
  >>> resetInactivityTimer
  >>> (fun c =>
         match data with
         | JS.Normal d => (c, [Delivered d])
         | JS.Throw _ => updateState (set_lastError (Some "invalid_message")) c
         end).

(** The reconnect timer fires. *)
Definition onReconnectTimer (ctor : JS.Completion unit) (c : WebSocketConnector)
  : WebSocketConnector * list Effect :=
  connect ctor
    {| socket := socket c; reconnectTimer := None;
       inactivityTimer := inactivityTimer c; pingTimer := pingTimer c;
       backoff := backoff c; state := state c |}.

(** The inactivity watchdog fires. *)
Definition onInactivity (now : Z) (c : WebSocketConnector)
  : WebSocketConnector * list Effect :=
  updateState (set_lastError (Some "inactivity_timeout")) c
  >>> handleClose "inactivity" now.

(** Everything that can happen to a connector. A timer fires only
    while it is armed, and [send] gives up when there is no socket. *)
Inductive Event : Type :=
| Start (ctor : JS.Completion unit)
| SocketOpen (now : Z)
| SocketMessage (now : Z) (data : JS.Completion JS.json)
| SocketClose (now : Z)
| SocketError (now : Z)
| SendFailed (now : Z)
| Inactivity (now : Z)
| ReconnectTimer (ctor : JS.Completion unit).

Definition step (e : Event) (c : WebSocketConnector) : WebSocketConnector * list Effect :=
  match e with
  | Start ctor =>
      if FeedStatus_eqb (status (state c)) connected then (c, []) else connect ctor c
  | SocketOpen now => onOpen now c
  | SocketMessage now data => onMessage now data c
  | SocketClose now => handleClose "closed" now c
  | SocketError now => handleClose "error" now c
  | SendFailed now =>
      if socket c then handleClose "send_error" now c else (c, [])
  | Inactivity now =>
      if inactivityTimer c then onInactivity now c else (c, [])
  | ReconnectTimer ctor =>
      match reconnectTimer c with
      | Some _ => onReconnectTimer ctor c
      | None => (c, [])
      end
  end.

Fixpoint run (evs : list Event) (c : WebSocketConnector) : WebSocketConnector * list Effect :=
  match evs with
  | [] => (c, [])
  | e :: rest => step e c >>> run rest
  end.

(** The reconnect delays among the effects, in order. *)
Fixpoint delays (out : list Effect) : list Z :=
  match out with
  | [] => []
  | ReconnectIn d :: rest => d :: delays rest
  | _ :: rest => delays rest
  end.

(** How a socket that never opened goes down: the runtime raises
    [error], [close], or both. *)
Inductive Down : Type :=
| Closed (now : Z)
| Errored (now : Z).

Definition down_event (d : Down) : Event :=
  match d with
  | Closed now => SocketClose now
  | Errored now => SocketError now
  end.

(** One failed connection attempt: the constructor throws, or the
    socket is created and goes down before it opens. *)
Inductive Failure : Type :=
| CtorThrows (msg : string)
| SocketDown (first : Down) (more : list Down).

Definition ctor_of (f : Failure) : JS.Completion unit :=
  match f with
  | CtorThrows msg => JS.Throw msg
  | SocketDown _ _ => JS.Normal tt
  end.

Definition downs_of (f : Failure) : list Event :=
  match f with
  | CtorThrows _ => []
  | SocketDown d more => down_event d :: List.map down_event more
  end.

(** The first attempt is made by [start()], every later one by the
    reconnect timer. *)
Definition attempt_start (first : bool) (ctor : JS.Completion unit) : Event :=
  if first then Start ctor else ReconnectTimer ctor.

(** The trace of consecutive failed attempts. *)
Fixpoint attempts (first : bool) (fs : list Failure) : list Event :=
  match fs with
  | [] => []
  | f :: rest =>
      (attempt_start first (ctor_of f) :: downs_of f ++ attempts false rest)%list
  end.

(** An attempt that succeeds: the socket is created and opens. *)
Definition opened (first : bool) (now : Z) : list Event :=
  [attempt_start first (JS.Normal tt); SocketOpen now].

Definition is_nil {A} (l : list A) : bool :=
  match l with [] => true | _ => false end.

(** The capped doubling sequence that starts at [b]. *)
Fixpoint backoff_seq (b : Z) (n : nat) : list Z :=
  match n with
  | O => []
  | S n' => b :: backoff_seq (Z.min (b * 2) MAX_BACKOFF_MS) n'
  end.

Definition is_open (e : Event) : bool :=
  match e with SocketOpen _ => true | _ => false end.

(** A connector that is about to make an attempt: [start()] has not
    connected yet, or the reconnect timer is armed. *)
Definition ready (first : bool) (c : WebSocketConnector) : Prop :=
  if first
  then reconnectTimer c = None /\ status (state c) <> connected
  else exists t, reconnectTimer c = Some t.

(** The delays the specification lists: 2 s doubled [i] times, capped
    at 60 s. *)
Definition capped_doubling (n : nat) : list Z :=
  List.map (fun i => Z.min (BASE_BACKOFF_MS * 2 ^ Z.of_nat i) MAX_BACKOFF_MS) (seq 0 n).

(** One session of a feed: the socket opens, frames arrive, the socket
    closes. *)
Record Session : Type := {
  opened_at : Z;
  traffic : list (Z * JS.Completion JS.json);
  closed_at : Z
}.

Definition session_events (first : bool) (s : Session) : list Event :=
  (opened first (opened_at s)
   ++ List.map (fun m => SocketMessage (fst m) (snd m)) (traffic s)
   ++ [SocketClose (closed_at s)])%list.

(** Sessions one after the other: the first connection is made by
    [start()], every later one by the reconnect timer. *)
Fixpoint sessions (first : bool) (ss : list Session) : list Event :=
  match ss with
  | [] => []
  | s :: rest => (session_events first s ++ sessions false rest)%list
  end.

Definition session_uptime (ss : list Session) : Z :=
  fold_right (fun s acc => (closed_at s - opened_at s) + acc) 0 ss.

(** The part of a connector that the session accounting is about. *)
Definition core (c : WebSocketConnector)
  : FeedStatus * option Z * option Z * Z * Z * Z * option Z :=
  (status (state c), connectedAt (state c), disconnectedAt (state c),
   reconnectCount (state c), totalUptime (state c), backoff c, reconnectTimer c).

(** One when the connector has been disconnected before. *)
Definition prior (c : WebSocketConnector) : Z :=
  match disconnectedAt (state c) with Some _ => 1 | None => 0 end.

(** A delay the connector may wait before it reconnects. *)
Definition in_range (delay : Z) : Prop :=
  BASE_BACKOFF_MS <= delay <= MAX_BACKOFF_MS.

End Connector.

(** ** The SQL engine and its adapter ([adapter.ts]) *)

Module Sql.
Import JS Types.

(** The [events] table, rows in rowid order. [failing] is set when the
    engine rejects every statement (storage unavailable). *)
Record Database : Type := {
  failing : option string;
  events : list EventRecord
}.

Definition empty : Database := {| failing := None; events := [] |}.

Definition has_event (id : string) (rows : list EventRecord) : bool :=
  existsb (fun r => String.eqb (eventId r) id) rows.

(** [INSERT OR IGNORE INTO events (...) VALUES (...)]: [eventId] is the
    primary key; a row whose key is taken is dropped. The row is kept
    with the values of the event. The affinity of the columns is not
    modelled: [reportType] is a TEXT column, so a numeric [reportType]
    is stored, and read back, as its text. The TEXT columns [eventId],
    [source], [type] and [time], on which the statements select and
    order, hold strings and are stored as they are. *)
Definition exec_insert_or_ignore (ev : EventRecord) (db : Database) : Completion Database :=
  match failing db with
  | Some e => Throw e
  | None =>
      Normal (if has_event (eventId ev) (events db) then db
              else {| failing := None; events := (events db ++ [ev])%list |})
  end.

(** Rows in [ORDER BY time DESC] order; [time] is TEXT, compared byte
    by byte. Rows with equal [time] keep their rowid order. *)
Fixpoint insert_desc (r : EventRecord) (sorted : list EventRecord) : list EventRecord :=
  match sorted with
  | [] => [r]
  | x :: rest =>
      if String.ltb (time x) (time r) then r :: sorted else x :: insert_desc r rest
  end.

Definition order_by_time_desc (rows : list EventRecord) : list EventRecord :=
  fold_left (fun acc r => insert_desc r acc) rows [].

(** [SELECT * FROM events ORDER BY time DESC LIMIT n]. *)
Definition exec_select_recent (n : nat) (db : Database) : Completion (list EventRecord) :=
  match failing db with
  | Some e => Throw e
  | None => Normal (firstn n (order_by_time_desc (events db)))
  end.

(** [SELECT COUNT(1) as c FROM events]. *)
Definition exec_count (db : Database) : Completion (list Z) :=
  match failing db with
  | Some e => Throw e
  | None => Normal [Z.of_nat (length (events db))]
  end.

(** One test of a [WHERE] clause; TEXT columns compare byte by byte. *)
Inductive Clause : Type :=
| TimeGe (bound : string)
| TimeLe (bound : string)
| TimeLt (bound : string)
| SourceEq (name : string)
| TypeEq (name : string).

Definition holds (c : Clause) (r : EventRecord) : bool :=
  match c with
  | TimeGe bound => String.leb bound (time r)
  | TimeLe bound => String.leb (time r) bound
  | TimeLt bound => String.ltb (time r) bound
  | SourceEq name => String.eqb (source_name (source r)) name
  | TypeEq name => String.eqb (type r) name
  end.

(** The conjunction of the clauses; no clause, no [WHERE]. *)
Definition where_ (clauses : list Clause) (r : EventRecord) : bool :=
  forallb (fun c => holds c r) clauses.

(** [LIMIT n]: a negative [n] puts no bound on the result. *)
Definition limit_rows {A} (n : Z) (rows : list A) : list A :=
  if n <? 0 then rows else firstn (Z.to_nat n) rows.

(** [SELECT * FROM events WHERE ... ORDER BY time DESC LIMIT ?]. *)
Definition exec_select_where (clauses : list Clause) (n : Z) (db : Database)
  : Completion (list EventRecord) :=
  match failing db with
  | Some e => Throw e
  | None => Normal (limit_rows n (order_by_time_desc (List.filter (where_ clauses) (events db))))
  end.

(** Rows in [ORDER BY time ASC] order. *)
Fixpoint insert_asc (r : EventRecord) (sorted : list EventRecord) : list EventRecord :=
  match sorted with
  | [] => [r]
  | x :: rest =>
      if String.ltb (time r) (time x) then r :: sorted else x :: insert_asc r rest
  end.

Definition order_by_time_asc (rows : list EventRecord) : list EventRecord :=
  fold_left (fun acc r => insert_asc r acc) rows [].

(** Newest first: every row is at least as late as all rows after it. *)
Definition newest_first (rows : list EventRecord) : Prop :=
  StronglySorted (fun a b => String.leb (time b) (time a) = true) rows.

Definition oldest_first (rows : list EventRecord) : Prop :=
  StronglySorted (fun a b => String.leb (time a) (time b) = true) rows.

(** [SELECT * FROM events ORDER BY time ASC LIMIT n]. *)
Definition exec_select_oldest (n : nat) (db : Database) : Completion (list EventRecord) :=
  match failing db with
  | Some e => Throw e
  | None => Normal (firstn n (order_by_time_asc (events db)))
  end.

(** [SELECT COUNT(1) as c FROM events WHERE source = ?]. *)
Definition exec_count_where (clauses : list Clause) (db : Database) : Completion (list Z) :=
  match failing db with
  | Some e => Throw e
  | None => Normal [Z.of_nat (length (List.filter (where_ clauses) (events db)))]
  end.

(** [DELETE FROM events WHERE ...]. *)
Definition exec_delete_where (clauses : list Clause) (db : Database) : Completion Database :=
  match failing db with
  | Some e => Throw e
  | None =>
      Normal {| failing := None;
                events := List.filter (fun r => negb (where_ clauses r)) (events db) |}
  end.

End Sql.

Module SqliteAdapter.
Import JS Types.

(** What [run] hands back to its caller. *)
Record RunResult : Type := { changes : option Z }.

(** [prepare(statement).run(...params)]: execute, then report one change. *)
Definition run {S} (exec : S -> Completion S) (db : S) : Completion (RunResult * S) :=
  bind (exec db) (fun db' => Normal ({| changes := Some 1 |}, db')).

(** [prepare(statement).first(...params)]: the first row of the cursor, or [null]. *)
Definition first {S R} (exec : S -> Completion (list R)) (db : S) : Completion (option R) :=
  bind (exec db) (fun rows => Normal (List.head rows)).

(** [prepare(statement).all(...params)]. *)
Definition all {S R} (exec : S -> Completion (list R)) (db : S) : Completion (list R) :=
  exec db.

End SqliteAdapter.

(** ** Event store ([storage.ts], class [EventStore]) *)

Module EventStore.
Import JS Types.

(** The loop of [insert]: one [stmt.run] per event, counting the runs
    that report exactly one change. *)
Fixpoint insert_loop (events : list EventRecord) (inserted : Z) (db : Sql.Database)
  : Completion (Z * Sql.Database) :=
  match events with
  | [] => Normal (inserted, db)
  | ev :: rest =>
      bind (SqliteAdapter.run (Sql.exec_insert_or_ignore ev) db) (fun r =>
        let inserted' :=
          match SqliteAdapter.changes (fst r) with
          | Some 1 => inserted + 1
          | _ => inserted
          end in
        insert_loop rest inserted' (snd r))
  end.

Definition insert (events : list EventRecord) (db : Sql.Database)
  : Completion (Z * Sql.Database) :=
  match events with
  | [] => Normal (0, db)
  | _ => insert_loop events 0 db
  end.

(** [deserialize(row)]: a row written by [insert] comes back with the
    fields it was stored with (column affinity is not modelled). *)
Definition deserialize (row : EventRecord) : EventRecord := row.

Definition latest (db : Sql.Database) : Completion (option EventRecord) :=
  bind (SqliteAdapter.first (Sql.exec_select_recent 1) db) (fun row =>
    Normal (option_map deserialize row)).

(** [list({limit})] with no filter. *)
Definition list_recent (limit : nat) (db : Sql.Database) : Completion (list EventRecord) :=
  bind (SqliteAdapter.all (Sql.exec_select_recent limit) db) (fun rows =>
    Normal (List.map deserialize rows)).

Definition count (db : Sql.Database) : Completion Z :=
  bind (SqliteAdapter.first Sql.exec_count db) (fun row =>
    Normal (match row with Some c => c | None => 0 end)).

(** [ListQuery]; [limit] is an integer, or [None] when it is absent or
    not finite. *)
Record ListQuery : Type := {
  since : option string;
  until : option string;
  limit : option Z;
  source : option string;
  type : option string
}.

(** The clauses [list] pushes, in its order; an empty string is falsy
    and pushes nothing. *)
Definition clauses_of (query : ListQuery) : list Sql.Clause :=
  ((match since query with Some (String c s) => [Sql.TimeGe (String c s)] | _ => [] end)
   ++ (match until query with Some (String c s) => [Sql.TimeLe (String c s)] | _ => [] end)
   ++ (match source query with Some (String c s) => [Sql.SourceEq (String c s)] | _ => [] end)
   ++ (match type query with Some (String c s) => [Sql.TypeEq (String c s)] | _ => [] end))%list.

Definition list (query : ListQuery) (db : Sql.Database) : Completion (list EventRecord) :=
  let limit := match limit query with Some n => n | None => 20 end in
  bind (SqliteAdapter.all (Sql.exec_select_where (clauses_of query) limit) db) (fun rows =>
    Normal (List.map deserialize rows)).

Definition countBySource (source : string) (db : Sql.Database) : Completion Z :=
  bind (SqliteAdapter.first (Sql.exec_count_where [Sql.SourceEq source]) db) (fun row =>
    Normal (match row with Some c => c | None => 0 end)).

Definition getOldestEvent (db : Sql.Database) : Completion (option EventRecord) :=
  bind (SqliteAdapter.first (Sql.exec_select_oldest 1) db) (fun row =>
    Normal (option_map deserialize row)).

Section WithHost.
Context {host : Host}.

(** [deleteOldEvents(daysOld)] at clock reading [now], for a whole
    number of days. The cut-off is written with [toISOString], which
    throws when [daysOld] takes it out of the range of dates; nothing
    is deleted then. *)
Definition deleteOldEvents (daysOld : Z) (now : Z) (db : Sql.Database)
  : Completion (Z * Sql.Database) :=
  bind (toISOString (now - daysOld * 24 * 60 * 60 * 1000)) (fun cutoff =>
    bind (SqliteAdapter.run (Sql.exec_delete_where [Sql.TimeLt cutoff]) db) (fun r =>
      Normal (match SqliteAdapter.changes (fst r) with Some n => n | None => 0 end, snd r))).

End WithHost.

End EventStore.

(** ** Signer ([signer.ts]) *)

Module Signer.
Import JS.

Record Jwk : Type := {
  key_ops : list string;
  ext : bool;
  alg : string;
  crv : string;
  d : string;
  x : string;
  kty : string
}.

Definition PRIVATE_KEY_JWK : Jwk := {|
  key_ops := ["sign"];
  ext := true;
  alg := "Ed25519";
  crv := "Ed25519";
  d := "cJKVaNJt4PiObVc8wE3rtcHMBf8xQs76dkXuXKaCpkM";
  x := "pTRkHaM6w9vmetzPFEbcwrxjjCn1Kc_mLzfkuu-Iro8";
  kty := "OKP"
|}.

Section WithHost.
Context {host : Host}.

Record Signer : Type := { key : option CryptoKey }.

Definition new_Signer : Signer := {| key := None |}.

Definition getPrivateKey (s : Signer) : CryptoKey * Signer :=
  match key s with
  | Some k => (k, s)
  | None =>
      let k := Ed25519_importKey (d PRIVATE_KEY_JWK) in
      (k, {| key := Some k |})
  end.

(** A signer holds no key yet, or the key imported from the embedded JWK. *)
Definition key_ok (s : Signer) : Prop :=
  key s = None \/ key s = Some (Ed25519_importKey (d PRIVATE_KEY_JWK)).

Record Signed : Type := {
  payload : string;
  signature : string;
  timestamp : Z
}.

(** [sign(data)] at clock reading [now]. *)
Definition sign (data : json) (now : Z) (s : Signer) : Signed * Signer :=
  let (k, s') := getPrivateKey s in
  let payloadString := JSON_stringify Number_toString data in
  let signatureBuffer := Ed25519_sign k (TextEncoder_encode payloadString) in
  ({| payload := payloadString;
      signature := btoa signatureBuffer;
      timestamp := now |}, s').

(** A run of [sign] calls on one signer; the results, oldest first. *)
Fixpoint sign_all (calls : list (json * Z)) (s : Signer) : list Signed * Signer :=
  match calls with
  | [] => ([], s)
  | (data, now) :: rest =>
      let (r, s1) := sign data now s in
      let (rs, s2) := sign_all rest s1 in
      (r :: rs, s2)
  end.

End WithHost.
End Signer.

(** ** Ingest ([ingest.ts], class [IngestService]) *)

Module Ingest.
Import JS Types.

Definition MAX_PARSER_ERRORS : nat := 10.

Record ParserError : Type := {
  error_timestamp : string;
  error_text : string
}.

(** The mutable fields of an [IngestService]. *)
Record IngestService : Type := {
  parserHeartbeat : option Heartbeat;
  parserErrorHistory : list ParserError;
  needsKmaSync : bool;
  lastStoredAt : option Z
}.

Definition new_IngestService : IngestService :=
  {| parserHeartbeat := None; parserErrorHistory := [];
     needsKmaSync := true; lastStoredAt := None |}.

(** A string is truthy when it is not empty. *)
Definition truthy (o : option string) : option string :=
  match o with
  | Some EmptyString => None
  | other => other
  end.

(** [handleHeartbeat(heartbeat)]. *)
Definition handleHeartbeat (heartbeat : Heartbeat) (s : IngestService) : IngestService :=
  let history :=
    match truthy (error heartbeat) with
    | Some e =>
        let h := {| error_timestamp := lastParseTime heartbeat; error_text := e |}
                   :: parserErrorHistory s in
        if (MAX_PARSER_ERRORS <? length h)%nat then firstn MAX_PARSER_ERRORS h else h
    | None => parserErrorHistory s
    end in
  {| parserHeartbeat := Some heartbeat;
     parserErrorHistory := history;
     needsKmaSync :=
       if needsKmaSync s && kmaConnection heartbeat then false else needsKmaSync s;
     lastStoredAt := lastStoredAt s |}.

Definition getSyncStatus (s : IngestService) : bool := needsKmaSync s.

Section WithHost.
Context {host : Host}.

(** The service together with the collaborators it was constructed
    with: the store's database, the signer, what the connection manager
    was asked to broadcast, and the backup projections handed to
    [waitUntil]. *)
Record World : Type := {
  service : IngestService;
  db : Sql.Database;
  signer : Signer.Signer;
  outbox : list (list Signer.Signed);
  scheduled : list (list EventRecord)
}.

Definition new_World : World :=
  {| service := new_IngestService; db := Sql.empty; signer := Signer.new_Signer;
     outbox := []; scheduled := [] |}.

(** [handleIncomingEvents(events)]. [clock 0] is the reading taken for
    [lastStoredAt], [clock (1 + i)] the one that the [sign] call of the
    i-th event takes. The calls run under [Promise.all] and each reads
    the clock when its own signature is ready, so these readings come
    in no particular order: nothing is assumed of [clock]. The
    envelopes are in batch order, as [Promise.all] returns them. *)
Definition handleIncomingEvents (events : list EventRecord) (clock : nat -> Z) (w : World)
  : World :=
  match events with
  | [] => w
  | _ =>
      match EventStore.insert events (db w) with
      | Throw _ => w
      | Normal (inserted, db1) =>
          if (0 <? inserted)%Z then
            let svc :=
              {| parserHeartbeat := parserHeartbeat (service w);
                 parserErrorHistory := parserErrorHistory (service w);
                 needsKmaSync := needsKmaSync (service w);
                 lastStoredAt := Some (clock O) |} in
            let calls :=
              combine (List.map EventRecord_json events)
                      (List.map clock (seq 1 (length events))) in
            let (signedEvents, signer1) := Signer.sign_all calls (signer w) in
            let sent := (outbox w ++ [signedEvents])%list in
            match EventStore.list_recent 1000 db1 with
            | Throw _ =>
                {| service := svc; db := db1; signer := signer1;
                   outbox := sent; scheduled := scheduled w |}
            | Normal allEvents =>
                {| service := svc; db := db1; signer := signer1;
                   outbox := sent; scheduled := (scheduled w ++ [allEvents])%list |}
            end
          else
            {| service := service w; db := db1; signer := signer w;
               outbox := outbox w; scheduled := scheduled w |}
      end
  end.

End WithHost.
End Ingest.

(** ** Event routes ([routes/events.ts]) *)

Module EventRoutes.
Import JS Types Ingest.

(** [IngestPayloadSchema]. *)
Record IngestPayload : Type := {
  heartbeat : option Heartbeat;
  events : option (list EventRecord)
}.

(** [!!payload.heartbeat?.kmaConnection]. *)
Definition reports_kma (payload : IngestPayload) : bool :=
  match heartbeat payload with
  | Some hb => kmaConnection hb
  | None => false
  end.

Record Response : Type := {
  status : Z;
  body : json
}.

Section WithHost.
Context {host : Host}.

Definition with_service (w : World) (s : IngestService) : World :=
  {| service := s; db := db w; signer := signer w;
     outbox := outbox w; scheduled := scheduled w |}.

Definition on_heartbeat (payload : IngestPayload) (w : World) : World :=
  match heartbeat payload with
  | Some hb => with_service w (handleHeartbeat hb (service w))
  | None => w
  end.

(** The handler of [POST /v1/events]. *)
Definition post_events (payload : IngestPayload) (clock : nat -> Z) (w : World)
  : Response * World :=
  let w1 := on_heartbeat payload w in
  let w2 :=
    match events payload with
    | Some (e :: es) => handleIncomingEvents (e :: es) clock w1
    | _ => w1
    end in
  let wasNeeded := needsKmaSync (service w2) in
  let hasKma := reports_kma payload in
  let w3 := on_heartbeat payload w2 in
  if wasNeeded && hasKma
  then ({| status := 200; body := JObj [("sync", JBool true)] |}, w3)
  else ({| status := 204; body := JNull |}, w3).

(** A run of requests against one process, the responses oldest first. *)
Fixpoint serve (requests : list (IngestPayload * (nat -> Z))) (w : World)
  : list Response * World :=
  match requests with
  | [] => ([], w)
  | (payload, clock) :: rest =>
      let (r, w1) := post_events payload clock w in
      let (rs, w2) := serve rest w1 in
      (r :: rs, w2)
  end.

(** What one request reports to the error ring: its heartbeat's error,
    as the handler passes the heartbeat to the service. *)
Definition error_entry (payload : IngestPayload) : list ParserError :=
  match heartbeat payload with
  | Some hb =>
      match truthy (error hb) with
      | Some e => [{| error_timestamp := lastParseTime hb; error_text := e |}]
      | None => []
      end
  | None => []
  end.

End WithHost.
End EventRoutes.

(** ** Backup projection ([backup.ts], class [BackupService]) *)

Module BackupService.
Import JS Types.

Record HttpMetadata : Type := {
  contentType : string;
  cacheControl : string
}.

(** The bucket, as the objects stored under their keys. *)
Definition Bucket : Type := gmap string (string * HttpMetadata).

Section WithHost.
Context {host : Host}.

(** [events.slice(0, 1000)]. *)
Definition projected (events : list EventRecord) : list EventRecord := firstn 1000 events.

(** [saveProjection(events)] at clock reading [now]; without a bucket
    nothing is written. *)
Definition saveProjection (events : list EventRecord) (now : Z) (bucket : option Bucket)
  : option Bucket :=
  match bucket with
  | None => None
  | Some objects =>
      let projection :=
        JSON_stringify Number_toString
          (JObj [("lastUpdated", JStr (Date_toISOString now));
                 ("events", JArr (List.map EventRecord_json (projected events)))]) in
      Some (<[ "events.json" :=
               (projection, {| contentType := "application/json";
                               cacheControl := "public, max-age=60" |}) ]> objects)
  end.

End WithHost.
End BackupService.

(** ** Sample data *)

Module Samples.
Import JS Types.

Definition quake (id t : string) (mag : Q) : EventRecord :=
  {| eventId := id; source := KMA; type := "information"; reportType := None;
     time := t; issueTime := None; receiveTime := t; receiveSource := "KMA";
     latitude := None; longitude := None; magnitude := Some mag; depth := None;
     intensity := None; region := None; advisory := None; revision := None |}.

Definition evA : EventRecord := quake "A" "2024-01-01T00:00:00.000Z" (3 # 1).
(** A second report that reuses the id of [evA]. *)
Definition evA' : EventRecord := quake "A" "2024-01-03T00:00:00.000Z" (5 # 1).
Definition evB : EventRecord := quake "B" "2024-01-02T00:00:00.000Z" (4 # 1).

Definition beat (reachable : bool) (err : option string) : Heartbeat :=
  {| kmaConnection := reachable; lastParseTime := "2024-01-01T00:00:00.000Z";
     lastEventTime := None; delayMs := 0; error := err; stats := None |}.

(** The query [?since=2024-01-02]. *)
Definition since_jan2 : EventStore.ListQuery :=
  {| EventStore.since := Some "2024-01-02"; EventStore.until := None;
     EventStore.limit := None; EventStore.source := None;
     EventStore.type := None |}.

(** A process whose storage rejects every statement. *)
Definition broken_world : Ingest.World :=
  {| Ingest.service := Ingest.new_IngestService;
     Ingest.db := {| Sql.failing := Some "disk I/O error"; Sql.events := [] |};
     Ingest.signer := Signer.new_Signer (host := JS.exampleHost);
     Ingest.outbox := []; Ingest.scheduled := [] |}.

(** A request that carries a heartbeat and one event. *)
Definition beat_and_event : EventRoutes.IngestPayload :=
  {| EventRoutes.heartbeat := Some (beat true None);
     EventRoutes.events := Some [evA] |}.

End Samples.

(** ** Rate limiter ([ratelimit.ts], with the accessors of [config.ts]) *)

Module RateLimit.
Import JS.

Record Rule : Type := {
  maxRequests : Z;
  windowSeconds : Z
}.

(** [config.rateLimit]. *)
Record Config : Type := {
  enabled : bool;
  limits : gmap string Rule
}.

Definition isRateLimitEnabled (cfg : Config) : bool := enabled cfg.

Definition getRateLimit (cfg : Config) (endpoint : string) : option Rule :=
  if enabled cfg then limits cfg !! endpoint else None.

(** A row of [rate_limits]; a column holds [None] for NULL. *)
Record Row : Type := {
  count : option Z;
  window_start : option Z
}.

Record RateLimitResult : Type := {
  allowed : bool;
  limit : Z;
  remaining : Z;
  resetAt : Z
}.

Definition unlimited : RateLimitResult :=
  {| allowed := true; limit := 0; remaining := 0; resetAt := 0 |}.

Definition key_of (ip endpoint : string) : string := ip ++ ":" ++ endpoint.

(** [now - (now % windowSeconds)], for a non-zero [windowSeconds]. *)
Definition windowStart_of (rule : Rule) (now : Z) : Z :=
  now - Z.rem now (windowSeconds rule).

(** [check(ip, endpoint)] when [Math.floor(Date.now() / 1000)] is [now]. *)
Definition check (cfg : Config) (ip endpoint : string) (now : Z)
    (rate_limits : gmap string Row) : RateLimitResult * gmap string Row :=
  if negb (isRateLimitEnabled cfg) then (unlimited, rate_limits)
  else
    match getRateLimit cfg endpoint with
    | None => (unlimited, rate_limits)
    | Some rule =>
        let key := key_of ip endpoint in
        let windowStart := windowStart_of rule now in
        let count :=
          match rate_limits !! key with
          | Some {| count := Some c; window_start := Some ws |} =>
              if ws =? windowStart then c else 0
          | _ => 0
          end in
        let allowed := count <? maxRequests rule in
        let remaining := Z.max 0 (maxRequests rule - count - 1) in
        let resetAt := windowStart + windowSeconds rule in
        ({| allowed := allowed; limit := maxRequests rule;
            remaining := remaining; resetAt := resetAt |},
         if allowed
         then <[key := {| count := Some (count + 1); window_start := Some windowStart |}]>
                rate_limits
         else rate_limits)
    end.

(** Consecutive calls for one client and endpoint, at the given clock
    readings; the results, oldest first. *)
Fixpoint checks (cfg : Config) (ip endpoint : string) (times : list Z)
    (rate_limits : gmap string Row) : list RateLimitResult * gmap string Row :=
  match times with
  | [] => ([], rate_limits)
  | now :: rest =>
      let (r, t1) := check cfg ip endpoint now rate_limits in
      let (rs, t2) := checks cfg ip endpoint rest t1 in
      (r :: rs, t2)
  end.

(** The counter stored for [key] in the window that starts at [w]. *)
Definition counter (rate_limits : gmap string Row) (key : string) (w : Z) : option Z :=
  match rate_limits !! key with
  | Some {| count := Some c; window_start := Some ws |} =>
      if ws =? w then Some c else None
  | _ => None
  end.

(** The counter [check] reads: the stored one when it belongs to the
    window that starts at [w], otherwise zero. *)
Definition seen (ip endpoint : string) (rate_limits : gmap string Row) (w : Z) : Z :=
  match counter rate_limits (key_of ip endpoint) w with
  | Some c => c
  | None => 0
  end.

(** What [check] answers under [rule], in the window that starts at
    [w], when the counter it reads is [c]. *)
Definition answer (rule : Rule) (w : Z) (c : Z) : RateLimitResult :=
  {| allowed := c <? maxRequests rule; limit := maxRequests rule;
     remaining := Z.max 0 (maxRequests rule - c - 1);
     resetAt := w + windowSeconds rule |}.

Definition is_nil {A} (l : list A) : bool :=
  match l with [] => true | _ => false end.

(** One rule, as in the rate-limit scenario: three requests a minute. *)
Definition sample_rule : Rule := {| maxRequests := 3; windowSeconds := 60 |}.

Definition sample_config : Config :=
  {| enabled := true; limits := {[ "GET /v1/events" := sample_rule ]} |}.

(** A rule that admits nothing. *)
Definition closed_config : Config :=
  {| enabled := true;
     limits := {[ "GET /v1/events" := {| maxRequests := 0; windowSeconds := 60 |} ]} |}.

End RateLimit.

(** ** Metrics ([metrics.ts], with the accessors of [config.ts]) *)

Module Metrics.
Import JS.

(** A row of [request_logs]. *)
Record RequestLog : Type := {
  timestamp : Z;
  endpoint : string;
  method : string;
  status : Z;
  duration_ms : option Q;
  ip : string;
  user_agent : string
}.

(** The primary key of [metrics_rollup]:
    [(timestamp, interval_seconds, metric_name, labels)]. *)
Definition RollupKey : Type := Z * Z * string * string.

(** The other columns of [metrics_rollup]: [(value, count)]. *)
Definition RollupValue : Type := Q * Z.

Record State : Type := {
  request_logs : list RequestLog;
  metrics_rollup : gmap RollupKey RollupValue;
  lastRollup : Z;
  lastCleanup : Z
}.

(** [getRollupIntervalMs()]: [config.metrics.rollupInterval] looked up in
    the table of intervals, one minute when it is not there. *)
Definition getRollupIntervalMs (rollupInterval : string) : Z :=
  if String.eqb rollupInterval "1m" then 60000
  else if String.eqb rollupInterval "5m" then 300000
  else if String.eqb rollupInterval "15m" then 900000
  else if String.eqb rollupInterval "1h" then 3600000
  else 60000.

Definition getRollupIntervalSeconds (rollupInterval : string) : Z :=
  getRollupIntervalMs rollupInterval / 1000.

(** A row of the [GROUP BY endpoint, status] query. *)
Record GroupRow : Type := {
  g_endpoint : string;
  g_status : Z;
  g_count : Z;
  g_avg_duration : option Q
}.

Definition same_group (e : string) (s : Z) (r : RequestLog) : bool :=
  String.eqb (endpoint r) e && (status r =? s).

(** The distinct [(endpoint, status)] pairs of the rows. *)
Fixpoint group_keys (rows : list RequestLog) : list (string * Z) :=
  match rows with
  | [] => []
  | r :: rest =>
      (endpoint r, status r)
      :: List.filter (fun k => negb (String.eqb (fst k) (endpoint r) && (snd k =? status r)))
           (group_keys rest)
  end.

Definition Qsum (l : list Q) : Q := fold_right Qplus (0 # 1)%Q l.

(** [AVG(duration_ms)]: NULL values are skipped; NULL when none is left. *)
Definition sql_avg (values : list (option Q)) : option Q :=
  match omap id values with
  | [] => None
  | v :: vs => Some (Qsum (v :: vs) / inject_Z (Z.of_nat (length (v :: vs))))%Q
  end.

Definition group_of (rows : list RequestLog) (k : string * Z) : GroupRow :=
  let members := List.filter (same_group (fst k) (snd k)) rows in
  {| g_endpoint := fst k; g_status := snd k;
     g_count := Z.of_nat (length members);
     g_avg_duration := sql_avg (List.map duration_ms members) |}.

Section WithEngine.
Context {host : Host}.

(** The order in which the engine hands back the groups. SQL leaves it
    open; it is a function of the query's result. *)
Variable arrange : list GroupRow -> list GroupRow.

(** [SELECT endpoint, status, COUNT( * ), AVG(duration_ms) FROM request_logs
     WHERE timestamp >= lo AND timestamp < hi GROUP BY endpoint, status]. *)
Definition select_groups (lo hi : Z) (logs : list RequestLog) : list GroupRow :=
  let rows := List.filter (fun r => (lo <=? timestamp r) && (timestamp r <? hi)) logs in
  arrange (List.map (group_of rows) (group_keys rows)).

(** [INSERT OR REPLACE INTO metrics_rollup (...) VALUES (...)]. *)
Definition upsert (k : RollupKey) (v : RollupValue)
    (table : gmap RollupKey RollupValue) : gmap RollupKey RollupValue :=
  <[k := v]> table.

(** The body of the loop of [performRollup] for one group. *)
Definition rollup_row (windowStart intervalSeconds : Z) (row : GroupRow)
    (table : gmap RollupKey RollupValue) : gmap RollupKey RollupValue :=
  let labels :=
    JSON_stringify Number_toString
      (JObj [("endpoint", JStr (g_endpoint row));
             ("status", JStr (String_of_Z (g_status row)))]) in
  let table1 :=
    upsert (windowStart, intervalSeconds, "requests_total", labels)
           (inject_Z (g_count row), 1) table in
  match g_avg_duration row with
  | Some avg =>
      let latencyLabels :=
        JSON_stringify Number_toString (JObj [("endpoint", JStr (g_endpoint row))]) in
      upsert (windowStart, intervalSeconds, "request_duration_avg", latencyLabels)
             (avg, g_count row) table1
  | None => table1
  end.

(** The upserts [performRollup] makes for one group, in order. *)
Definition writes (windowStart intervalSeconds : Z) (row : GroupRow)
  : list (RollupKey * RollupValue) :=
  let labels :=
    JSON_stringify Number_toString
      (JObj [("endpoint", JStr (g_endpoint row));
             ("status", JStr (String_of_Z (g_status row)))]) in
  ((windowStart, intervalSeconds, "requests_total", labels), (inject_Z (g_count row), 1))
  :: match g_avg_duration row with
     | Some avg =>
         [((windowStart, intervalSeconds, "request_duration_avg",
            JSON_stringify Number_toString (JObj [("endpoint", JStr (g_endpoint row))])),
           (avg, g_count row))]
     | None => []
     end.

Definition apply_writes (ups : list (RollupKey * RollupValue))
    (table : gmap RollupKey RollupValue) : gmap RollupKey RollupValue :=
  fold_left (fun t kv => upsert (fst kv) (snd kv) t) ups table.

(** The value the last upsert of [ups] on key [k] leaves, if any. *)
Fixpoint last_write (k : RollupKey) (ups : list (RollupKey * RollupValue))
  : option RollupValue :=
  match ups with
  | [] => None
  | (k', v) :: rest =>
      match last_write k rest with
      | Some v' => Some v'
      | None => if decide (k' = k) then Some v else None
      end
  end.

(** [now - (now % intervalSeconds)] for [now = Math.floor(nowMs / 1000)]. *)
Definition currentWindow_of (rollupInterval : string) (nowMs : Z) : Z :=
  let intervalSeconds := getRollupIntervalSeconds rollupInterval in
  let now := nowMs / 1000 in
  now - Z.rem now intervalSeconds.

(** [performRollup()]; [nowMs] and [doneMs] are the clock readings at its
    start and at its end. *)
Definition performRollup (rollupInterval : string) (nowMs doneMs : Z) (st : State) : State :=
  let intervalSeconds := getRollupIntervalSeconds rollupInterval in
  let currentWindow := currentWindow_of rollupInterval nowMs in
  let requestRows :=
    select_groups (currentWindow - intervalSeconds) currentWindow (request_logs st) in
  {| request_logs := request_logs st;
     metrics_rollup :=
       fold_left (fun table row =>
                    rollup_row (currentWindow - intervalSeconds) intervalSeconds row table)
                 requestRows (metrics_rollup st);
     lastRollup := doneMs;
     lastCleanup := lastCleanup st |}.

End WithEngine.

(** Seven requests inside one one-minute window. *)
Definition sample_log (t : Z) (e : string) (s : Z) (d : Q) : RequestLog :=
  {| timestamp := t; endpoint := e; method := "GET"; status := s;
     duration_ms := Some d; ip := "1.2.3.4"; user_agent := "curl" |}.

Definition sample_logs : list RequestLog :=
  [ sample_log 60 "/v1/events" 200 (4 # 1); sample_log 61 "/v1/events" 200 (6 # 1);
    sample_log 70 "/v1/events" 429 (0 # 1); sample_log 75 "/v1/health" 200 (1 # 1);
    sample_log 80 "/v1/health" 503 (2 # 1); sample_log 90 "/v1/events" 200 (5 # 1);
    sample_log 119 "/v1/status" 200 (3 # 1) ].

Definition sample_state : State :=
  {| request_logs := sample_logs; metrics_rollup := ∅; lastRollup := 0; lastCleanup := 0 |}.

End Metrics.

(** ** Health monitor ([monitoring.ts]) and health routes ([routes/health.ts]) *)

Module Monitoring.
Import JS Types.

(** A heartbeat age: a number of whole seconds, [Infinity] when there is
    no heartbeat, NaN when [lastParseTime] is not a date. *)
Inductive Age : Type :=
| Seconds (n : Z)
| Infinity
| NaN.

(** [age < limit] as JavaScript compares numbers. *)
Definition Age_lt (a : Age) (limit : Z) : bool :=
  match a with
  | Seconds n => n <? limit
  | Infinity => false
  | NaN => false
  end.

Record FeedStates : Type := {
  wolfx : FeedState;
  p2p : FeedState
}.

Record Checks : Type := {
  parser : bool;
  feeds : bool;
  database : bool
}.

Record HealthCheckResponse : Type := {
  healthy : bool;
  checks : Checks
}.

Section WithHost.
Context {host : Host}.

(** [getHeartbeatAge(parserHeartbeat)] when [Date.now()] is [nowMs]. *)
Definition getHeartbeatAge (parserHeartbeat : option Heartbeat) (nowMs : Z) : Age :=
  match parserHeartbeat with
  | None => Infinity
  | Some hb =>
      match Date_getTime (lastParseTime hb) with
      | Some t => Seconds ((nowMs - t) / 1000)
      | None => NaN
      end
  end.

(** [checkHealth(parserHeartbeat, feedStates, store)];
    [parserTimeoutSeconds] is [config.getParserTimeoutSeconds()]. *)
Definition checkHealth (parserTimeoutSeconds : Z) (parserHeartbeat : option Heartbeat)
    (feedStates : FeedStates) (store : Sql.Database) (nowMs : Z) : HealthCheckResponse :=
  let parserHealthy := Age_lt (getHeartbeatAge parserHeartbeat nowMs) parserTimeoutSeconds in
  let feedsHealthy :=
    FeedStatus_eqb (status (wolfx feedStates)) connected
    || FeedStatus_eqb (status (p2p feedStates)) connected in
  let databaseHealthy :=
    match EventStore.count store with
    | Normal _ => true
    | Throw _ => false
    end in
  {| healthy := parserHealthy && feedsHealthy && databaseHealthy;
     checks := {| parser := parserHealthy; feeds := feedsHealthy;
                  database := databaseHealthy |} |}.

End WithHost.
End Monitoring.

Module HealthRoutes.
Import JS Types Monitoring.

(** What the health routes can reach through [deps]: the object passed
    to [createApp] is the durable object, whose properties of interest
    here are [config], [ingestService], [feedStates] and [store]
    ([ApiDependencies], [CanariaSqlDurableObject]). The parser heartbeat
    lives in [ingestService]; the object has no [parserHeartbeat]
    property of its own. *)
Record Deps : Type := {
  parserTimeoutSeconds : Z;
  ingestService : Ingest.IngestService;
  feedStates : FeedStates;
  store : Sql.Database
}.

(** [deps.parserHeartbeat]: reading a property the object does not have
    gives [undefined], whatever [deps.ingestService] holds. *)
Definition parserHeartbeat (deps : Deps) : option Heartbeat := None.

Section WithHost.
Context {host : Host}.

(** The handler of [GET /health]: the status it sets and the body it
    returns. *)
Definition get_health (deps : Deps) (nowMs : Z) : Z * HealthCheckResponse :=
  let health :=
    checkHealth (parserTimeoutSeconds deps) (parserHeartbeat deps)
                (feedStates deps) (store deps) nowMs in
  (if healthy health then 200 else 503, health).

End WithHost.
End HealthRoutes.

(** ** Normalizers ([normalizers.ts]) *)

Module Normalizers.
Import JS Types.

(** [obj[k]] on a parsed object: the last member named [k]. *)
Fixpoint get (k : string) (fields : list (string * json)) : option json :=
  match fields with
  | [] => None
  | (k', v) :: rest =>
      match get k rest with
      | Some v' => Some v'
      | None => if String.eqb k' k then Some v else None
      end
  end.

Definition get_in (k : string) (v : option json) : option json :=
  match v with
  | Some (JObj fields) => get k fields
  | _ => None
  end.

(** Truthiness of a parsed value. *)
Definition json_truthy (v : json) : bool :=
  match v with
  | JNull => false
  | JBool b => b
  | JNum q => negb (Qeq_bool q 0)
  | JStr s => negb (String.eqb s EmptyString)
  | JArr _ => true
  | JObj _ => true
  end.

Definition as_string (v : option json) : option string :=
  match v with
  | Some (JStr s) => Some s
  | _ => None
  end.

Definition as_number (v : option json) : option Q :=
  match v with
  | Some (JNum q) => Some q
  | _ => None
  end.

(** A string that is present and not empty. *)
Definition truthy (o : option string) : option string :=
  match o with
  | Some EmptyString => None
  | other => other
  end.

(** [a || b] on optional strings. *)
Definition or_else (a b : option string) : option string :=
  match truthy a with
  | Some s => Some s
  | None => b
  end.

(** *** Schema ([P2PSchema]) *)

(** [z.string().optional()], [z.number().optional()]: absent, or of the type. *)
Definition opt_string (v : option json) : bool :=
  match v with
  | None | Some (JStr _) => true
  | _ => false
  end.

Definition opt_number (v : option json) : bool :=
  match v with
  | None | Some (JNum _) => true
  | _ => false
  end.

(** [z.object({...}).optional()]. *)
Definition opt_object (shape : list (string * json) -> bool) (v : option json) : bool :=
  match v with
  | None => true
  | Some (JObj fields) => shape fields
  | _ => false
  end.

Definition issue_shape (f : list (string * json)) : bool :=
  opt_string (get "time" f) && opt_string (get "eventId" f) && opt_string (get "id" f)
  && opt_string (get "serial" f) && opt_string (get "type" f).

Definition hypocenter_shape (f : list (string * json)) : bool :=
  opt_string (get "name" f).

Definition earthquake_shape (f : list (string * json)) : bool :=
  opt_string (get "time" f) && opt_object hypocenter_shape (get "hypocenter" f).

Definition area_shape (v : json) : bool :=
  match v with
  | JObj f => opt_number (get "peer" f)
  | _ => false
  end.

Definition opt_areas (v : option json) : bool :=
  match v with
  | None => true
  | Some (JArr items) => forallb area_shape items
  | _ => false
  end.

(** [P2PSchema.safeParse(raw).success]. *)
Definition P2PSchema (raw : json) : bool :=
  match raw with
  | JObj f =>
      match get "code" f with
      | Some (JNum _) =>
          opt_string (get "time" f) && opt_string (get "created_at" f)
          && opt_object issue_shape (get "issue" f)
          && opt_string (get "id" f) && opt_string (get "_id" f)
          && opt_number (get "count" f) && opt_number (get "confidence" f)
          && opt_areas (get "areas" f)
          && opt_object earthquake_shape (get "earthquake" f)
      | _ => false
      end
  | _ => false
  end.

(** *** String helpers *)

Fixpoint includes (c : ascii) (s : string) : bool :=
  match s with
  | EmptyString => false
  | String c' rest => Ascii.eqb c' c || includes c rest
  end.

Fixpoint endsWith (c : ascii) (s : string) : bool :=
  match s with
  | EmptyString => false
  | String c' EmptyString => Ascii.eqb c' c
  | String _ rest => endsWith c rest
  end.

(** [s.replace(/c/g, d)]. *)
Fixpoint replace_all (c d : ascii) (s : string) : string :=
  match s with
  | EmptyString => EmptyString
  | String c' rest => String (if Ascii.eqb c' c then d else c') (replace_all c d rest)
  end.

(** [s.replace(c, d)]: the first occurrence only. *)
Fixpoint replace_first (c d : ascii) (s : string) : string :=
  match s with
  | EmptyString => EmptyString
  | String c' rest =>
      if Ascii.eqb c' c then String d rest else String c' (replace_first c d rest)
  end.

(** White space: tab, line feed, vertical tab, form feed, carriage
    return and space. *)
Definition is_space (c : ascii) : bool :=
  let n := N_of_ascii c in
  ((9 <=? n) && (n <=? 13) || (n =? 32))%N.

(** [s.replace(/\s+/g, "_")]; [in_run] tells that the previous character
    was white space. *)
Fixpoint collapse_spaces (in_run : bool) (s : string) : string :=
  match s with
  | EmptyString => EmptyString
  | String c rest =>
      if is_space c
      then if in_run then collapse_spaces true rest
           else String "_" (collapse_spaces true rest)
      else String c (collapse_spaces false rest)
  end.

Section WithHost.
Context {host : Host}.

(** [String(v)] for a parsed value. *)
Fixpoint String_of_json (v : json) : string :=
  match v with
  | JNull => "null"
  | JBool true => "true"
  | JBool false => "false"
  | JNum q => Number_toString q
  | JStr s => s
  | JArr items =>
      join ","
        (List.map (fun item => match item with
                               | JNull => EmptyString
                               | _ => String_of_json item
                               end) items)
  | JObj _ => "[object Object]"
  end.

(** [numeric(value)]. *)
Definition numeric (value : option json) : option Q :=
  match value with
  | Some (JNum q) => Some q
  | Some (JStr s) => Number_ofString s
  | _ => None
  end.

(** An argument of [buildSyntheticId]. *)
Inductive Part : Type :=
| PartString (s : string)
| PartNumber (n : Q).

Definition part_text (p : Part) : string :=
  match p with
  | PartString s => s
  | PartNumber n => Number_toString n
  end.

Definition kept (p : option Part) : list Part :=
  match p with
  | None => []
  | Some (PartString EmptyString) => []
  | Some p => [p]
  end.

(** [buildSyntheticId(prefix, ...parts)] when [Date.now()] is [nowMs]. *)
Definition buildSyntheticId (prefix : string) (parts : list (option Part)) (nowMs : Z)
  : string :=
  let normalized :=
    join "-" (List.map (fun p => collapse_spaces false (part_text p)) (flat_map kept parts)) in
  match normalized with
  | EmptyString => prefix ++ "-" ++ String_of_Z nowMs
  | _ => prefix ++ "-" ++ normalized
  end.

(** [normalizeTime(timeStr)] when [Date.now()] is [nowMs]. *)
Definition normalizeTime (timeStr : option string) (nowMs : Z) : string :=
  match truthy timeStr with
  | None => Date_toISOString nowMs
  | Some s =>
      if includes "T" s && (endsWith "Z" s || includes "+" s) then s
      else
        let isoLike := replace_first " " "T" (replace_all "/" "-" s) in
        let isoLike :=
          if negb (includes "+" isoLike) && negb (endsWith "Z" isoLike)
          then isoLike ++ "+09:00" else isoLike in
        match Date_normalize isoLike with
        | Some iso => iso
        | None => Date_toISOString nowMs
        end
  end.

Definition part_of_string (o : option string) : option Part := option_map PartString o.
Definition part_of_number (o : option Q) : option Part := option_map PartNumber o.

(** The peers of one area: [Number(curr.peer) || 0]. *)
Definition area_peers (v : json) : Q :=
  match v with
  | JObj f => match get "peer" f with Some (JNum n) => n | _ => 0 end
  | _ => 0
  end.

(** [normalizeP2pEvent(raw)]. The clock is read up to four times: for
    [time] (0), [issueTime] (1), a synthetic id (2) and [receiveTime] (3). *)
Definition normalizeP2pEvent (raw : json) (clock : nat -> Z) : option EventRecord :=
  if negb (P2PSchema raw) then None
  else
    match raw with
    | JObj data =>
        match get "code" data with
        | Some (JNum code) =>
            let issue := get "issue" data in
            let id := as_string (get "id" data) in
            let _id := as_string (get "_id" data) in
            if Qeq_bool code 9611 then
              let time :=
                normalizeTime (or_else (as_string (get "time" data))
                                       (as_string (get "created_at" data))) (clock 0%nat) in
              let issueTime :=
                match truthy (as_string (get_in "time" issue)) with
                | Some t => normalizeTime (Some t) (clock 1%nat)
                | None => time
                end in
              Some
                {| eventId :=
                     match or_else id _id with
                     | Some (String c s) => String c s
                     | _ => buildSyntheticId "p2p"
                              [Some (PartString time); Some (PartString "9611")] (clock 2%nat)
                     end;
                   source := P2PQUAKE;
                   type := "UserReport";
                   reportType := Some (ReportNumber 9611);
                   time := time;
                   issueTime := Some issueTime;
                   receiveTime := Date_toISOString (clock 3%nat);
                   receiveSource := "P2P";
                   latitude := None; longitude := None; magnitude := None;
                   depth := None; intensity := None;
                   region :=
                     Some ("User Reports: "
                           ++ match as_number (get "count" data) with
                              | Some n => if Qeq_bool n 0 then "0" else Number_toString n
                              | None => "0"
                              end);
                   advisory :=
                     match as_number (get "confidence" data) with
                     | Some n => if Qeq_bool n 0 then None
                                 else Some ("Confidence: " ++ Number_toString n)
                     | None => None
                     end;
                   revision := Some "final" |}
            else if Qeq_bool code 555 then
              let time := normalizeTime (as_string (get "time" data)) (clock 0%nat) in
              let areas :=
                match get "areas" data with
                | Some (JArr items) => items
                | _ => []
                end in
              let areaCount := Z.of_nat (length areas) in
              let totalPeers := fold_left (fun acc curr => (acc + area_peers curr)%Q) areas 0%Q in
              Some
                {| eventId :=
                     match or_else id _id with
                     | Some (String c s) => String c s
                     | _ => buildSyntheticId "p2p"
                              [Some (PartString time); Some (PartString "555")] (clock 2%nat)
                     end;
                   source := P2PQUAKE;
                   type := "EEWDetection";
                   reportType := Some (ReportNumber 555);
                   time := time;
                   issueTime := Some time;
                   receiveTime := Date_toISOString (clock 3%nat);
                   receiveSource := "P2P";
                   latitude := None; longitude := None; magnitude := None;
                   depth := None; intensity := None;
                   region :=
                     Some ("Detected in " ++ String_of_Z areaCount ++ " area"
                           ++ (if areaCount =? 1 then EmptyString else "s")
                           ++ " (Total peers: " ++ Number_toString totalPeers ++ ")");
                   advisory := None;
                   revision := Some "final" |}
            else
              let eq := get "earthquake" data in
              let hypocenter := get_in "hypocenter" eq in
              let rawTime :=
                or_else (as_string (get "time" data))
                  (or_else (as_string (get_in "time" eq)) (as_string (get_in "time" issue))) in
              let time := normalizeTime rawTime (clock 0%nat) in
              let issueTime :=
                match truthy (as_string (get_in "time" issue)) with
                | Some t => Some (normalizeTime (Some t) (clock 1%nat))
                | None => None
                end in
              let latitude := numeric (get_in "latitude" hypocenter) in
              let longitude := numeric (get_in "longitude" hypocenter) in
              let magnitude := numeric (get_in "magnitude" eq) in
              let depth := numeric (get_in "depth" hypocenter) in
              Some
                {| eventId :=
                     match or_else id (or_else (as_string (get_in "eventId" issue))
                                               (as_string (get_in "id" issue))) with
                     | Some (String c s) => String c s
                     | _ => buildSyntheticId "p2p"
                              [ Some (PartString time); part_of_number latitude;
                                part_of_number longitude; part_of_number magnitude;
                                Some (PartNumber code);
                                part_of_string (as_string (get_in "serial" issue)) ]
                              (clock 2%nat)
                     end;
                   source := P2PQUAKE;
                   type := if Qeq_bool code 551 then "information" else Number_toString code;
                   reportType := Some (ReportNumber code);
                   time := time;
                   issueTime := issueTime;
                   receiveTime := Date_toISOString (clock 3%nat);
                   receiveSource := "P2P";
                   latitude := latitude; longitude := longitude; magnitude := magnitude;
                   depth := depth;
                   intensity := numeric (get_in "maxScale" eq);
                   region := truthy (as_string (get_in "name" hypocenter));
                   advisory :=
                     match get "tsunami" data with
                     | Some v => if json_truthy v then Some (String_of_json v) else None
                     | None => None
                     end;
                   revision := truthy (as_string (get_in "type" issue)) |}
        | _ => None
        end
    | _ => None
    end.

End WithHost.
End Normalizers.

(** ** Feed manager ([feeds.ts], class [FeedManager]) *)

Module FeedManager.
Import JS Types Normalizers.

Definition ALLOWED_CODES : list Q := [551; 552; 556; 561]%Q.

(** [codes.includes(c)]. *)
Definition includes_code (c : Q) (codes : list Q) : bool :=
  existsb (Qeq_bool c) codes.

Section WithHost.
Context {host : Host}.

(** [handleP2pMessage(data)]: the events handed to [options.onEvent]. *)
Definition handleP2pMessage (data : json) (clock : nat -> Z) : list EventRecord :=
  if negb (json_truthy data) then []
  else if match data with
          | JObj fields =>
              match get "code" fields with
              | Some (JNum code) => negb (includes_code code ALLOWED_CODES)
              | _ => false
              end
          | _ => false
          end
  then []
  else
    match normalizeP2pEvent data clock with
    | Some event => [event]
    | None => []
    end.

End WithHost.

(** An earthquake information frame and a user-report evaluation frame. *)
Definition frame551 : json :=
  JObj [ ("code", JNum 551); ("id", JStr "q-1"); ("time", JStr "2024-01-01T00:00:00Z");
         ("earthquake",
           JObj [("hypocenter", JObj [("name", JStr "Noto"); ("latitude", JNum (373 # 10))])]) ].

Definition frame9611 : json :=
  JObj [ ("code", JNum 9611); ("id", JStr "u-1"); ("time", JStr "2024-01-01T00:00:00Z");
         ("count", JNum 12) ].

End FeedManager.

(** * Properties *)

(** ** Host runtime *)

Example btoa_Man : JS.btoa [77; 97; 110] = "TWFu".
Proof. reflexivity. Qed.

Example btoa_Ma : JS.btoa [77; 97] = "TWE=".
Proof. reflexivity. Qed.

Example String_of_Z_200 : JS.String_of_Z 200 = "200".
Proof. reflexivity. Qed.

Example quote_string_escapes :
  JS.quote_string (String "a" (String JS.quote_char (String "010"%char "b")))
  = String JS.quote_char
      (String "a" (String JS.backslash (String JS.quote_char
         (String JS.backslash (String "n" (String "b" (String JS.quote_char EmptyString))))))).
Proof. reflexivity. Qed.

(** ** Reconnect backoff *)

Section ConnectorFacts.
Import Types Connector.

Lemma andThen_fst (r : WebSocketConnector * list Effect) k :
  fst (r >>> k) = fst (k (fst r)).
Proof. unfold andThen. now destruct (k (fst r)). Qed.

Lemma andThen_snd (r : WebSocketConnector * list Effect) k :
  snd (r >>> k) = (snd r ++ snd (k (fst r)))%list.
Proof. unfold andThen. now destruct (k (fst r)). Qed.

Lemma delays_app (o1 o2 : list Effect) :
  delays (o1 ++ o2)%list = (delays o1 ++ delays o2)%list.
Proof.
  induction o1 as [| e o1 IH]; simpl; [reflexivity |].
  destruct e; simpl; now rewrite ?IH.
Qed.

(** Push the projections and [delays] through a chain of steps. *)
Ltac thread :=
  repeat (rewrite ?andThen_fst, ?andThen_snd, ?delays_app; cbv beta).

Lemma run_app (evs1 evs2 : list Event) (c : WebSocketConnector) :
  run (evs1 ++ evs2)%list c = run evs1 c >>> run evs2.
Proof.
  revert c. induction evs1 as [| e evs1 IH]; intros c; simpl.
  - unfold andThen. simpl. destruct (run evs2 c). reflexivity.
  - unfold andThen in *. destruct (step e c) as [c1 out1]. simpl.
    rewrite IH. destruct (run evs1 c1) as [c2 out2]. simpl.
    destruct (run evs2 c2) as [c3 out3]. simpl. now rewrite app_assoc.
Qed.

(** Going down while a reconnect is pending schedules nothing and
    leaves backoff and timer alone. *)
Lemma down_pending (d : Down) (c : WebSocketConnector) (t : Z) :
  reconnectTimer c = Some t ->
  let r := step (down_event d) c in
  reconnectTimer (fst r) = Some t /\ backoff (fst r) = backoff c /\ delays (snd r) = [].
Proof.
  intros Ht. destruct d; simpl; unfold handleClose, andThen, cleanupSocket, updateState,
    scheduleReconnect, with_state; simpl; rewrite Ht; simpl;
    destruct (socket c); simpl; auto.
Qed.

Lemma downs_pending (ds : list Down) (c : WebSocketConnector) (t : Z) :
  reconnectTimer c = Some t ->
  let r := run (List.map down_event ds) c in
  reconnectTimer (fst r) = Some t /\ backoff (fst r) = backoff c /\ delays (snd r) = [].
Proof.
  revert c. induction ds as [| d ds IH]; intros c Ht; simpl; [auto |].
  destruct (down_pending d c t Ht) as (H1 & H2 & H3).
  unfold andThen. destruct (step (down_event d) c) as [c1 o1]. simpl in *.
  destruct (IH c1 H1) as (H4 & H5 & H6).
  destruct (run (List.map down_event ds) c1) as [c2 o2]. simpl in *.
  rewrite delays_app, H3, H6. repeat split; congruence.
Qed.

(** The first time the socket goes down with no reconnect pending, the
    current backoff is the delay and the backoff doubles up to the cap. *)
Lemma down_schedules (d : Down) (c : WebSocketConnector) :
  reconnectTimer c = None ->
  let r := step (down_event d) c in
  reconnectTimer (fst r) = Some (backoff c)
  /\ backoff (fst r) = Z.min (backoff c * 2) MAX_BACKOFF_MS
  /\ delays (snd r) = [backoff c].
Proof.
  intros Ht. destruct d; simpl; unfold handleClose, andThen, cleanupSocket, updateState,
    scheduleReconnect, with_state; simpl; rewrite Ht; simpl;
    destruct (socket c); simpl; auto.
Qed.

Lemma attempt_fails (first : bool) (f : Failure) (c : WebSocketConnector) :
  ready first c ->
  let r := run (attempt_start first (ctor_of f) :: downs_of f) c in
  ready false (fst r)
  /\ backoff (fst r) = Z.min (backoff c * 2) MAX_BACKOFF_MS
  /\ delays (snd r) = [backoff c].
Proof.
  intros Hr.
  assert (Hstart : exists c0,
             step (attempt_start first (ctor_of f)) c
             = connect (ctor_of f) c0
             /\ reconnectTimer c0 = None /\ backoff c0 = backoff c).
  { destruct first; simpl in *.
    - destruct Hr as [Ht Hs]. exists c. split; [| auto].
      destruct (status (state c)); simpl; congruence.
    - destruct Hr as [t Ht]. rewrite Ht. unfold onReconnectTimer.
      eexists. split; [reflexivity |]. simpl. auto. }
  destruct Hstart as (c0 & Hstep & Ht0 & Hb0).
  cbn [run]. cbv zeta. rewrite Hstep. clear Hstep.
  destruct f as [msg | d more]; cbn [ctor_of downs_of run].
  - unfold ready, andThen, connect, updateState, scheduleReconnect, with_state; simpl.
    rewrite Ht0. simpl. rewrite Hb0. repeat split; eauto.
  - set (r1 := connect (JS.Normal tt) c0).
    assert (Hc1 : reconnectTimer (fst r1) = None /\ backoff (fst r1) = backoff c
                  /\ delays (snd r1) = []).
    { subst r1. unfold connect, andThen, updateState, with_state. simpl. auto. }
    destruct Hc1 as (Ht1 & Hb1 & Hd1).
    destruct (down_schedules d (fst r1) Ht1) as (H1 & H2 & H3).
    destruct (downs_pending more _ _ H1) as (H4 & H5 & H6).
    cbv zeta in *.
    thread.
    rewrite Hd1, H3, H6, H5, H2, Hb1.
    repeat split. unfold ready. rewrite H4. eauto.
Qed.

(** Consecutive failed attempts walk down the capped doubling
    sequence, whatever way each attempt fails. *)
Lemma attempts_delays (fs : list Failure) :
  forall (first : bool) (c : WebSocketConnector),
    ready first c ->
    let r := run (attempts first fs) c in
    delays (snd r) = backoff_seq (backoff c) (length fs)
    /\ ready (first && is_nil fs) (fst r).
Proof.
  induction fs as [| f fs IH]; intros first c Hr;
    cbn [attempts length backoff_seq]; cbv zeta.
  - simpl. split; [reflexivity |]. now rewrite andb_true_r.
  - change (attempt_start first (ctor_of f) :: downs_of f ++ attempts false fs)%list
      with ((attempt_start first (ctor_of f) :: downs_of f) ++ attempts false fs)%list.
    rewrite run_app.
    destruct (attempt_fails first f c Hr) as (H1 & H2 & H3). cbv zeta in *.
    destruct (IH false _ H1) as (H4 & H5). cbv zeta in *.
    rewrite andThen_fst, andThen_snd, delays_app, H3, H4, H2.
    split; [reflexivity |].
    cbn [is_nil]. rewrite andb_false_r. exact H5.
Qed.

Lemma backoff_seq_nth (n : nat) :
  forall (b : Z) (i : nat),
    0 < b <= MAX_BACKOFF_MS -> (i < n)%nat ->
    nth i (backoff_seq b n) 0 = Z.min (b * 2 ^ Z.of_nat i) MAX_BACKOFF_MS.
Proof.
  induction n as [| n IH]; intros b i Hb Hi; [lia |].
  destruct i as [| i]; cbn [backoff_seq nth]; unfold MAX_BACKOFF_MS in *.
  - rewrite Z.pow_0_r. lia.
  - rewrite IH by lia.
    rewrite Nat2Z.inj_succ, Z.pow_succ_r by lia.
    assert (Hp : 0 < 2 ^ Z.of_nat i) by (apply Z.pow_pos_nonneg; lia).
    destruct (Z.le_gt_cases (b * 2) 60000) as [Hle | Hgt].
    + rewrite (Z.min_l (b * 2) 60000) by lia.
      now replace (b * 2 * 2 ^ Z.of_nat i) with (b * (2 * 2 ^ Z.of_nat i)) by ring.
    + rewrite (Z.min_r (b * 2) 60000) by lia.
      assert (60000 <= 60000 * 2 ^ Z.of_nat i) by nia.
      assert (60000 <= b * (2 * 2 ^ Z.of_nat i)) by nia.
      lia.
Qed.

(** Each delay is the previous one doubled and capped. *)
Lemma backoff_seq_next (n : nat) :
  forall (b : Z) (i : nat),
    (S i < n)%nat ->
    nth (S i) (backoff_seq b n) 0
    = Z.min (nth i (backoff_seq b n) 0 * 2) MAX_BACKOFF_MS.
Proof.
  induction n as [| n IH]; intros b i Hi; [lia |].
  destruct i as [| i]; cbn [backoff_seq nth].
  - destruct n as [| n]; [lia | reflexivity].
  - apply IH. lia.
Qed.

Lemma backoff_seq_length (n : nat) (b : Z) : length (backoff_seq b n) = n.
Proof. revert b. induction n as [| n IH]; intros b; simpl; [| rewrite IH]; reflexivity. Qed.

(** After the socket opens the backoff is the base again. *)
Lemma open_resets (first : bool) (now : Z) (c : WebSocketConnector) :
  ready first c ->
  let r := run (opened first now) c in
  reconnectTimer (fst r) = None /\ backoff (fst r) = BASE_BACKOFF_MS
  /\ delays (snd r) = [].
Proof.
  intros Hr. unfold opened. cbn [run].
  assert (Hstart : exists c0,
             step (attempt_start first (JS.Normal tt)) c = connect (JS.Normal tt) c0
             /\ reconnectTimer c0 = None).
  { destruct first; simpl in *.
    - destruct Hr as [Ht Hs]. exists c. split; [| auto].
      destruct (status (state c)); simpl; congruence.
    - destruct Hr as [t Ht]. rewrite Ht. unfold onReconnectTimer.
      eexists. split; [reflexivity |]. reflexivity. }
  destruct Hstart as (c0 & Hstep & Ht0). rewrite Hstep.
  unfold connect, step, onOpen, andThen, updateState, armPing, resetInactivityTimer,
    with_state. simpl.
  destruct (pingTimer c0); simpl; auto.
Qed.

(** Whatever else happens to a connector, as long as no socket opens
    every step schedules at most one reconnect, after the current
    backoff, and only a scheduled reconnect moves the backoff. *)
Lemma step_delay (e : Event) (c : WebSocketConnector) :
  is_open e = false ->
  (delays (snd (step e c)) = [] /\ backoff (fst (step e c)) = backoff c)
  \/ (delays (snd (step e c)) = [backoff c]
      /\ backoff (fst (step e c)) = Z.min (backoff c * 2) MAX_BACKOFF_MS).
Proof.
  intros Hopen.
  destruct e as [ctor | now | now data | now | now | now | now | ctor];
    try discriminate; cbn [step];
    unfold onReconnectTimer, onInactivity, onMessage, connect, handleClose, andThen,
      cleanupSocket, updateState, resetInactivityTimer, scheduleReconnect, with_state;
    repeat match goal with
           | |- context [match ?x with _ => _ end] =>
               match x with
               | reconnectTimer _ => destruct x eqn:?
               | socket _ => destruct x eqn:?
               | inactivityTimer _ => destruct x eqn:?
               | FeedStatus_eqb _ _ => destruct x eqn:?
               | _ => is_var x; destruct x
               end; cbn
           end;
    cbn; auto.
Qed.

Lemma open_free_delays (evs : list Event) :
  forall c : WebSocketConnector,
    forallb (fun e => negb (is_open e)) evs = true ->
    delays (snd (run evs c))
    = backoff_seq (backoff c) (length (delays (snd (run evs c)))).
Proof.
  induction evs as [| e evs IH]; intros c Hfree; [reflexivity |].
  cbn [forallb] in Hfree. apply andb_true_iff in Hfree. destruct Hfree as [He Hfree].
  apply negb_true_iff in He. cbn [run]. thread.
  specialize (IH (fst (step e c)) Hfree).
  destruct (step_delay e c He) as [[Hd Hb] | [Hd Hb]]; rewrite Hd; cbn [app length].
  - rewrite Hb in IH. exact IH.
  - cbn [backoff_seq]. f_equal. rewrite Hb in IH. exact IH.
Qed.

Lemma backoff_seq_base (n : nat) :
  backoff_seq BASE_BACKOFF_MS n = capped_doubling n.
Proof.
  apply (nth_ext _ _ 0 0).
  - unfold capped_doubling. now rewrite backoff_seq_length, length_map, length_seq.
  - intros i Hi. rewrite backoff_seq_length in Hi.
    rewrite backoff_seq_nth by (unfold BASE_BACKOFF_MS, MAX_BACKOFF_MS; lia).
    unfold capped_doubling.
    rewrite (nth_indep _ 0 ((fun i => Z.min (BASE_BACKOFF_MS * 2 ^ Z.of_nat i)
                                           MAX_BACKOFF_MS) O))
      by now rewrite length_map, length_seq.
    rewrite (map_nth (fun i => Z.min (BASE_BACKOFF_MS * 2 ^ Z.of_nat i) MAX_BACKOFF_MS)).
    now rewrite seq_nth.
Qed.

(** C6. For every connector, consecutive failed connection attempts
    (the constructor throws, or the socket raises [error]/[close]
    before it opens) schedule the reconnect delays 2 s, 4 s, 8 s, 16 s,
    32 s, 60 s, 60 s, ...: the i-th delay is min(2 s * 2^i, 60 s), each
    delay is min(previous * 2, 60 s); and once a socket has opened, the
    next delay is 2 s again and the sequence restarts. *)
Theorem reconnect_delay_sequence :
  forall (fs gs : list Failure) (now : Z) (d : Down) (more : list Down),
    delays (snd (run (attempts true fs) new_WebSocketConnector))
    = capped_doubling (length fs)
    /\ capped_doubling 7 = [2000; 4000; 8000; 16000; 32000; 60000; 60000]
    /\ (forall i, (S i < length fs)%nat ->
          nth (S i) (capped_doubling (length fs)) 0
          = Z.min (nth i (capped_doubling (length fs)) 0 * 2) 60000)
    /\ delays (snd (run (attempts true fs
                           ++ opened (is_nil fs) now
                           ++ down_event d :: List.map down_event more
                           ++ attempts false gs)%list
                        new_WebSocketConnector))
       = (capped_doubling (length fs) ++ capped_doubling (S (length gs)))%list.
Proof.
  intros fs gs now d more.
  assert (Hnew : ready true new_WebSocketConnector) by (split; [reflexivity | discriminate]).
  destruct (attempts_delays fs true _ Hnew) as [Hd Hr]. cbv zeta in Hd, Hr.
  rewrite andb_true_l in Hr. rewrite backoff_seq_base in Hd.
  split; [exact Hd |]. split; [reflexivity |]. split.
  - intros i Hi. rewrite <- backoff_seq_base. now apply backoff_seq_next.
  - rewrite run_app, andThen_snd, delays_app, Hd. f_equal.
    set (c1 := fst (run (attempts true fs) new_WebSocketConnector)) in *.
    destruct (open_resets _ now c1 Hr) as (Ht2 & Hb2 & Hd2). cbv zeta in *.
    rewrite run_app, andThen_snd, delays_app, Hd2.
    set (c2 := fst (run (opened (is_nil fs) now) c1)) in *.
    change (down_event d :: List.map down_event more ++ attempts false gs)%list
      with ([down_event d] ++ (List.map down_event more ++ attempts false gs))%list.
    rewrite !run_app. cbn [run].
    destruct (down_schedules d c2 Ht2) as (H1 & H2 & H3). cbv zeta in *.
    destruct (downs_pending more _ _ H1) as (H4 & H5 & H6). cbv zeta in *.
    thread.
    cbn [fst snd delays]. rewrite run_app.
    thread.
    rewrite app_nil_r, H3, H6.
    match goal with
    | |- context [run (attempts false gs) ?c] =>
        destruct (attempts_delays gs false c) as [Hd3 _]
    end.
    { unfold ready. rewrite H4. eauto. }
    cbv zeta in Hd3. rewrite Hd3, H5, H2, Hb2, <- backoff_seq_base. reflexivity.
Qed.

End ConnectorFacts.

(** ** Event store *)

Section EventStoreFacts.
Import JS Types.

Lemma insert_loop_spec (evs : list EventRecord) :
  forall (n : Z) (rows : list EventRecord),
  exists rows',
    EventStore.insert_loop evs n {| Sql.failing := None; Sql.events := rows |}
    = Normal (n + Z.of_nat (length evs), {| Sql.failing := None; Sql.events := rows' |})
    /\ (forall id, Sql.has_event id rows' = Sql.has_event id rows
                                           || existsb (fun e => String.eqb (eventId e) id) evs)
    /\ (exists added, rows' = (rows ++ added)%list).
Proof.
  induction evs as [| ev evs IH]; intros n rows.
  - exists rows. simpl. rewrite Z.add_0_r. repeat split.
    + intros id. now rewrite orb_false_r.
    + exists []. now rewrite app_nil_r.
  - cbn [EventStore.insert_loop]. unfold SqliteAdapter.run, Sql.exec_insert_or_ignore.
    cbn [Sql.failing Sql.events bind fst snd SqliteAdapter.changes].
    destruct (Sql.has_event (eventId ev) rows) eqn:Hin; cbn [bind fst snd SqliteAdapter.changes].
    + destruct (IH (n + 1) rows) as (rows' & Hrun & Hmem & added & Hadd).
      exists rows'. rewrite Hrun. repeat split.
      * f_equal. f_equal. cbn [length]. lia.
      * intros id. rewrite Hmem. cbn [existsb].
        destruct (String.eqb (eventId ev) id) eqn:Heq; [| reflexivity].
        apply String.eqb_eq in Heq. subst id. rewrite Hin. reflexivity.
      * exists added. exact Hadd.
    + destruct (IH (n + 1) (rows ++ [ev])%list) as (rows' & Hrun & Hmem & added & Hadd).
      exists rows'. rewrite Hrun. repeat split.
      * f_equal. f_equal. cbn [length]. lia.
      * intros id. rewrite Hmem. unfold Sql.has_event. rewrite existsb_app. cbn [existsb].
        rewrite orb_false_r. now rewrite orb_assoc.
      * exists ([ev] ++ added)%list. rewrite Hadd. now rewrite app_assoc.
Qed.

(** Through the adapter, [insert] on a working database answers with
    the size of the batch, whatever was already stored. *)
Lemma insert_returns_batch_size (evs : list EventRecord) (rows : list EventRecord) :
  exists rows',
    EventStore.insert evs {| Sql.failing := None; Sql.events := rows |}
    = Normal (Z.of_nat (length evs), {| Sql.failing := None; Sql.events := rows' |}).
Proof.
  destruct evs as [| ev evs].
  - exists rows. reflexivity.
  - destruct (insert_loop_spec (ev :: evs) 0 rows) as (rows' & Hrun & _).
    exists rows'. exact Hrun.
Qed.

(** Rows that are stored stay as they are: [insert] only appends. *)
Lemma insert_appends (evs : list EventRecord) (rows : list EventRecord) :
  exists n added,
    EventStore.insert evs {| Sql.failing := None; Sql.events := rows |}
    = Normal (n, {| Sql.failing := None; Sql.events := (rows ++ added)%list |}).
Proof.
  destruct evs as [| ev evs].
  - exists 0, []. simpl. now rewrite app_nil_r.
  - destruct (insert_loop_spec (ev :: evs) 0 rows) as (rows' & Hrun & _ & added & ->).
    eexists _, added. exact Hrun.
Qed.

(** No two stored rows share an [eventId], before and after. *)
Lemma insert_keeps_ids_unique (evs : list EventRecord) :
  forall (n : Z) (rows : list EventRecord),
    NoDup (List.map eventId rows) ->
    exists rows',
      EventStore.insert_loop evs n {| Sql.failing := None; Sql.events := rows |}
      = Normal (n + Z.of_nat (length evs), {| Sql.failing := None; Sql.events := rows' |})
      /\ NoDup (List.map eventId rows').
Proof.
  induction evs as [| ev evs IH]; intros n rows Hnd.
  - exists rows. simpl. rewrite Z.add_0_r. auto.
  - cbn [EventStore.insert_loop]. unfold SqliteAdapter.run, Sql.exec_insert_or_ignore.
    cbn [Sql.failing Sql.events bind fst snd SqliteAdapter.changes].
    destruct (Sql.has_event (eventId ev) rows) eqn:Hin; cbn [bind fst snd SqliteAdapter.changes].
    + destruct (IH (n + 1) rows Hnd) as (rows' & Hrun & Hnd').
      exists rows'. rewrite Hrun. split; [| exact Hnd'].
      f_equal. f_equal. cbn [length]. lia.
    + destruct (IH (n + 1) (rows ++ [ev])%list) as (rows' & Hrun & Hnd').
      { rewrite List.map_app. cbn [List.map]. apply NoDup_app. split; [exact Hnd |].
        split; [| apply NoDup_singleton].
        intros id Hid Hid'. apply list_elem_of_singleton in Hid'. subst id.
        apply list_elem_of_In, in_map_iff in Hid. destruct Hid as (r & Hr & Hrin).
        assert (Hex : Sql.has_event (eventId ev) rows = true).
        { unfold Sql.has_event. apply existsb_exists. exists r. split; [exact Hrin |].
          now apply String.eqb_eq. }
        congruence. }
      exists rows'. rewrite Hrun. split; [| exact Hnd'].
      f_equal. f_equal. cbn [length]. lia.
Qed.

(** C1. On an empty store, [insert([A])] followed by [insert([A', B])],
    where [A'] reuses the id of [A]: the first call
    returns 1 and the second returns 2, although only [B] materialized
    a row; the stored rows are [A] (not overwritten) and [B], [count()]
    is 2 and [latest()] is the row with the greatest [time]. The
    returned count is the number of statements run, not the number of
    rows newly materialized. *)
Theorem insert_dedup_reports_two :
  exists db1 db2,
    EventStore.insert [Samples.evA] Sql.empty = Normal (1, db1)
    /\ EventStore.insert [Samples.evA'; Samples.evB] db1 = Normal (2, db2)
    /\ Sql.events db2 = [Samples.evA; Samples.evB]
    /\ EventStore.count db2 = Normal 2
    /\ EventStore.latest db2 = Normal (Some Samples.evB).
Proof.
  eexists _, _. split; [reflexivity |]. split; [reflexivity |].
  split; [reflexivity |]. split; reflexivity.
Qed.

End EventStoreFacts.

(** ** Signer *)

Section SignerFacts.
Import JS Signer.
Context {host : Host}.

Lemma getPrivateKey_ok (s : Signer) :
  key_ok s ->
  fst (getPrivateKey s) = Ed25519_importKey (d PRIVATE_KEY_JWK)
  /\ key_ok (snd (getPrivateKey s)).
Proof.
  unfold key_ok, getPrivateKey. intros [Hk | Hk]; rewrite Hk; simpl; auto.
Qed.

Lemma sign_ok (data : json) (now : Z) (s : Signer) :
  key_ok s ->
  fst (sign data now s)
  = {| payload := JSON_stringify Number_toString data;
       signature :=
         btoa (Ed25519_sign (Ed25519_importKey (d PRIVATE_KEY_JWK))
                 (TextEncoder_encode (JSON_stringify Number_toString data)));
       timestamp := now |}
  /\ key_ok (snd (sign data now s)).
Proof.
  intros Hs. destruct (getPrivateKey_ok s Hs) as [Hk Hs'].
  unfold sign. destruct (getPrivateKey s) as [k s']. simpl in *. subst k. auto.
Qed.

Lemma sign_all_ok (calls : list (json * Z)) :
  forall s, key_ok s -> key_ok (snd (sign_all calls s)).
Proof.
  induction calls as [| [data now] calls IH]; intros s Hs; simpl; [exact Hs |].
  destruct (sign_ok data now s Hs) as [_ Hs1].
  destruct (sign data now s) as [r s1]. simpl in Hs1.
  specialize (IH s1 Hs1). destruct (sign_all calls s1) as [rs s2]. exact IH.
Qed.

(** C8. Two calls [sign(x)] on the same signer, whatever it signed
    before and in between and whenever they are made, return the same
    payload, which is the serialization of [x], and the same base64
    signature; the timestamps are the two clock readings. *)
Theorem sign_deterministic :
  forall (x : json) (before between : list (json * Z)) (t1 t2 : Z),
    let s0 := snd (sign_all before new_Signer) in
    let r1 := fst (sign x t1 s0) in
    let s1 := snd (sign_all between (snd (sign x t1 s0))) in
    let r2 := fst (sign x t2 s1) in
    payload r1 = JSON_stringify Number_toString x
    /\ payload r2 = payload r1
    /\ signature r2 = signature r1
    /\ timestamp r1 = t1
    /\ timestamp r2 = t2.
Proof.
  intros x before between t1 t2 s0 r1 s1 r2.
  assert (H0 : key_ok s0) by (apply sign_all_ok; left; reflexivity).
  destruct (sign_ok x t1 s0 H0) as [Hr1 Hk1].
  assert (H1 : key_ok s1) by (apply sign_all_ok; exact Hk1).
  destruct (sign_ok x t2 s1 H1) as [Hr2 _].
  subst r1 r2. rewrite Hr1, Hr2. simpl. repeat split.
Qed.

End SignerFacts.

(** ** Ingest and the events route *)

Section IngestFacts.
Import JS Types Ingest EventRoutes.
Context {host : Host}.

Lemma handleHeartbeat_bounded (hb : Heartbeat) (s : IngestService) :
  (length (parserErrorHistory s) <= MAX_PARSER_ERRORS)%nat ->
  (length (parserErrorHistory (handleHeartbeat hb s)) <= MAX_PARSER_ERRORS)%nat.
Proof.
  intros Hlen. unfold handleHeartbeat; cbn [parserErrorHistory].
  destruct (truthy (error hb)); [| exact Hlen].
  destruct (Nat.ltb_spec MAX_PARSER_ERRORS
              (length ({| error_timestamp := lastParseTime hb; error_text := s0 |}
                         :: parserErrorHistory s))).
  - rewrite length_firstn. lia.
  - lia.
Qed.

(** One call of [handleHeartbeat] with an error puts one entry in front
    and drops what no longer fits. *)
Lemma handleHeartbeat_prepends (hb : Heartbeat) (e : string) (s : IngestService) :
  truthy (error hb) = Some e ->
  parserErrorHistory (handleHeartbeat hb s)
  = firstn MAX_PARSER_ERRORS
      ({| error_timestamp := lastParseTime hb; error_text := e |} :: parserErrorHistory s).
Proof.
  intros He. unfold handleHeartbeat; cbn [parserErrorHistory]. rewrite He.
  destruct (Nat.ltb_spec MAX_PARSER_ERRORS
              (length ({| error_timestamp := lastParseTime hb; error_text := e |}
                         :: parserErrorHistory s))); [reflexivity |].
  now rewrite firstn_all2.
Qed.

Lemma handleIncomingEvents_service (evs : list EventRecord) (clock : nat -> Z) (w : World) :
  parserHeartbeat (service (handleIncomingEvents evs clock w)) = parserHeartbeat (service w)
  /\ parserErrorHistory (service (handleIncomingEvents evs clock w))
     = parserErrorHistory (service w)
  /\ needsKmaSync (service (handleIncomingEvents evs clock w)) = needsKmaSync (service w).
Proof.
  unfold handleIncomingEvents. destruct evs as [| e es]; [auto |].
  destruct (EventStore.insert (e :: es) (db w)) as [[inserted db1] | err]; [| auto].
  destruct (0 <? inserted)%Z; [| auto].
  destruct (Signer.sign_all _ (signer w)) as [signed signer1].
  destruct (EventStore.list_recent 1000 db1); auto.
Qed.

Lemma map_fst_combine {A B} (l : list A) :
  forall l' : list B, length l = length l' -> List.map fst (combine l l') = l.
Proof.
  induction l as [| a l IH]; intros [| b l'] Hlen; try discriminate; [reflexivity |].
  cbn. f_equal. apply IH. now injection Hlen.
Qed.

(** On a working database every non-empty batch is signed, event by
    event and in order, and broadcast once, whether or not any of its
    events is new. *)
Lemma handleIncomingEvents_broadcasts
    (e : EventRecord) (es : list EventRecord) (clock : nat -> Z) (w : World) :
  Sql.failing (db w) = None ->
  exists signed,
    outbox (handleIncomingEvents (e :: es) clock w) = (outbox w ++ [signed])%list
    /\ List.map Signer.payload signed
       = List.map (fun ev => JSON_stringify Number_toString (EventRecord_json ev)) (e :: es)
    /\ lastStoredAt (service (handleIncomingEvents (e :: es) clock w)) = Some (clock O).
Proof.
  intros Hok. unfold handleIncomingEvents.
  destruct (db w) as [failing rows] eqn:Hdb. cbn [Sql.failing] in Hok. subst failing.
  destruct (insert_returns_batch_size (e :: es) rows) as (rows' & Hins).
  rewrite Hins.
  destruct (Z.ltb_spec 0 (Z.of_nat (length (e :: es)))) as [_ | Hle]; [| cbn [length] in Hle; lia].
  set (calls := combine (List.map EventRecord_json (e :: es))
                        (List.map clock (seq 1 (length (e :: es))))).
  assert (Hpay : forall cs s,
             List.map Signer.payload (fst (Signer.sign_all cs s))
             = List.map (fun c => JSON_stringify Number_toString (fst c)) cs).
  { induction cs as [| [data now] cs IHcs]; intros s; [reflexivity |].
    cbn [Signer.sign_all]. unfold Signer.sign at 1.
    destruct (Signer.getPrivateKey s) as [k s1].
    specialize (IHcs s1). destruct (Signer.sign_all cs s1) as [rs s2].
    cbn [fst List.map Signer.payload] in *. now rewrite IHcs. }
  specialize (Hpay calls (signer w)).
  destruct (Signer.sign_all calls (signer w)) as [signed signer1]. cbn [fst] in Hpay.
  exists signed. split; [| split].
  - destruct (EventStore.list_recent 1000 _); reflexivity.
  - rewrite Hpay. subst calls. rewrite <- (List.map_map fst).
    rewrite map_fst_combine; [now rewrite List.map_map |].
    now rewrite !length_map, length_seq.
  - destruct (EventStore.list_recent 1000 _); reflexivity.
Qed.

Lemma handleHeartbeat_flag (hb : Heartbeat) (s : IngestService) :
  needsKmaSync (handleHeartbeat hb s) = needsKmaSync s && negb (kmaConnection hb).
Proof.
  unfold handleHeartbeat; cbn [needsKmaSync].
  destruct (needsKmaSync s), (kmaConnection hb); reflexivity.
Qed.

(** One request: the answer is 204 with no body, and the flag is
    cleared exactly when the heartbeat reports the authority reachable. *)
Lemma post_events_204 (payload : IngestPayload) (clock : nat -> Z) (w : World) :
  let r := post_events payload clock w in
  status (fst r) = 204
  /\ body (fst r) = JNull
  /\ needsKmaSync (service (snd r)) = needsKmaSync (service w) && negb (reports_kma payload).
Proof.
  unfold post_events, on_heartbeat, reports_kma.
  destruct (heartbeat payload) as [hb |].
  - set (w1 := with_service w (handleHeartbeat hb (service w))).
    set (w2 := match events payload with
               | Some (e :: es) => handleIncomingEvents (e :: es) clock w1
               | _ => w1
               end).
    assert (Hflag : needsKmaSync (service w2)
                    = needsKmaSync (service w) && negb (kmaConnection hb)).
    { subst w2. destruct (events payload) as [[| e es] |];
        try (destruct (handleIncomingEvents_service (e :: es) clock w1) as (_ & _ & ->));
        subst w1; cbn [service with_service]; apply handleHeartbeat_flag. }
    rewrite Hflag.
    destruct (needsKmaSync (service w)) eqn:Hn, (kmaConnection hb) eqn:Hk;
      cbn [andb negb fst snd status body service with_service];
      rewrite ?handleHeartbeat_flag, ?Hflag, ?Hk; auto.
  - cbn [andb]. rewrite andb_false_r. cbn [fst snd status body].
    repeat split. rewrite andb_true_r.
    destruct (events payload) as [[| e es] |]; try reflexivity.
    now destruct (handleIncomingEvents_service (e :: es) clock w) as (_ & _ & ->).
Qed.

(** C3. Whatever requests a process serves from its start, every
    [POST /v1/events] responds 204 with an empty body, the first one
    whose heartbeat reports the authority reachable included: the
    handler lets [handleHeartbeat] clear the needs-sync flag before it
    reads the flag, so [{sync:true}] is never sent. The flag is cleared
    by the first such request and is never set again. *)
Theorem sync_is_never_signalled :
  forall (before after : list (IngestPayload * (nat -> Z))),
    let r1 := serve before new_World in
    let r2 := serve after (snd r1) in
    Forall (fun r => status r = 204 /\ body r = JNull) (fst r1 ++ fst r2)%list
    /\ needsKmaSync (service (snd r1))
       = negb (existsb (fun req => reports_kma (fst req)) before)
    /\ needsKmaSync (service (snd r2))
       = needsKmaSync (service (snd r1))
         && negb (existsb (fun req => reports_kma (fst req)) after).
Proof.
  assert (Hserve : forall reqs w,
             Forall (fun r => status r = 204 /\ body r = JNull) (fst (serve reqs w))
             /\ needsKmaSync (service (snd (serve reqs w)))
                = needsKmaSync (service w)
                  && negb (existsb (fun req => reports_kma (fst req)) reqs)).
  { induction reqs as [| [payload clock] reqs IH]; intros w.
    - cbn. split; [constructor | now rewrite andb_true_r].
    - cbn [serve existsb fst].
      destruct (post_events_204 payload clock w) as (Hs & Hb & Hf). cbv zeta in *.
      destruct (post_events payload clock w) as [r w1]. cbn [fst snd] in *.
      destruct (IH w1) as [Hall Hflag].
      destruct (serve reqs w1) as [rs w2]. cbn [fst snd] in *.
      split; [constructor; auto |].
      rewrite Hflag, Hf, negb_orb. now rewrite andb_assoc. }
  intros before after r1 r2. subst r1 r2.
  destruct (Hserve before new_World) as [H1 F1].
  destruct (Hserve after (snd (serve before new_World))) as [H2 F2].
  split; [apply Forall_app; auto |]. split; [exact F1 | exact F2].
Qed.

(** C9. On a fresh process, after one [POST /v1/events] whose heartbeat
    carries the error "boom", the parser error ring
    holds two entries for that one submission: the handler runs
    [handleHeartbeat] twice on the same heartbeat. *)
Theorem post_events_records_error_twice :
  let payload := {| heartbeat := Some (Samples.beat false (Some "boom")); events := None |} in
  let entry := {| error_timestamp := "2024-01-01T00:00:00.000Z"; error_text := "boom" |} in
  forall clock : nat -> Z,
    parserErrorHistory (service (snd (post_events payload clock new_World)))
    = [entry; entry].
Proof. intros payload entry clock. reflexivity. Qed.

(** Whatever is posted, the ring never holds more than ten entries. *)
Lemma post_events_bounded (payload : IngestPayload) (clock : nat -> Z) (w : World) :
  (length (parserErrorHistory (service w)) <= MAX_PARSER_ERRORS)%nat ->
  (length (parserErrorHistory (service (snd (post_events payload clock w))))
   <= MAX_PARSER_ERRORS)%nat.
Proof.
  intros Hlen. unfold post_events.
  set (w1 := on_heartbeat payload w).
  set (w2 := match events payload with
             | Some (e :: es) => handleIncomingEvents (e :: es) clock w1
             | _ => w1
             end).
  assert (Hstep : forall v,
             (length (parserErrorHistory (service v)) <= MAX_PARSER_ERRORS)%nat ->
             (length (parserErrorHistory (service (on_heartbeat payload v)))
              <= MAX_PARSER_ERRORS)%nat).
  { intros v Hv. unfold on_heartbeat. destruct (heartbeat payload) as [hb |]; [| exact Hv].
    cbn [service with_service]. now apply handleHeartbeat_bounded. }
  assert (Hh : parserErrorHistory (service w2) = parserErrorHistory (service w1)).
  { subst w2. destruct (events payload) as [[| e es] |]; try reflexivity.
    now destruct (handleIncomingEvents_service (e :: es) clock w1) as (_ & -> & _). }
  destruct (needsKmaSync (service w2) && reports_kma payload);
    cbn [snd]; apply Hstep; rewrite Hh; apply Hstep; exact Hlen.
Qed.

End IngestFacts.

Section IngestExamples.
Import JS Types Ingest.
#[local] Existing Instance exampleHost.

(** C10. When the store already holds [A] and the batch [[A]] is
    ingested again, so that no event of the batch is new,
    [insert] still answers 1 through the adapter, and the batch is
    signed and broadcast a second time, [lastStoredAt] moves to the new
    clock reading and a second backup projection is scheduled. *)
Theorem duplicate_batch_is_broadcast_again :
  let w1 := handleIncomingEvents [Samples.evA] (fun _ => 1000) new_World in
  let w2 := handleIncomingEvents [Samples.evA] (fun _ => 2000) w1 in
  Sql.events (db w1) = [Samples.evA]
  /\ Sql.events (db w2) = [Samples.evA]
  /\ length (outbox w1) = 1%nat
  /\ length (outbox w2) = 2%nat
  /\ List.map (List.map Signer.payload) (outbox w2)
     = [[JSON_stringify Number_toString (EventRecord_json Samples.evA)];
        [JSON_stringify Number_toString (EventRecord_json Samples.evA)]]
  /\ lastStoredAt (service w1) = Some 1000
  /\ lastStoredAt (service w2) = Some 2000
  /\ scheduled w2 = [[Samples.evA]; [Samples.evA]].
Proof. vm_compute. repeat split. Qed.

End IngestExamples.

(** ** Rate limiter *)

Section RateLimitFacts.
Import RateLimit.

Variables (cfg : Config) (ip endpoint : string) (rule : Rule).
Hypothesis Henabled : enabled cfg = true.
Hypothesis Hrule : limits cfg !! endpoint = Some rule.

Let key := key_of ip endpoint.

Lemma check_seen (now : Z) (rate_limits : gmap string Row) :
  let w := windowStart_of rule now in
  let c := seen ip endpoint rate_limits w in
  check cfg ip endpoint now rate_limits
  = (answer rule w c,
     if c <? maxRequests rule
     then <[key := {| count := Some (c + 1); window_start := Some w |}]> rate_limits
     else rate_limits).
Proof.
  unfold check, isRateLimitEnabled, getRateLimit, seen, counter, answer.
  rewrite Henabled, Hrule. cbn [negb]. fold key.
  destruct (rate_limits !! key) as [[[c |] [ws |]] |]; try reflexivity.
  destruct (ws =? windowStart_of rule now); reflexivity.
Qed.

Lemma counter_insert (rate_limits : gmap string Row) (c w : Z) :
  counter (<[key := {| count := Some c; window_start := Some w |}]> rate_limits) key w
  = Some c.
Proof. unfold counter. rewrite lookup_insert_eq. now rewrite Z.eqb_refl. Qed.

(** Once the counter of the window has reached the maximum, further
    calls in that window are denied and change nothing. *)
Lemma checks_full (times : list Z) (w : Z) :
  Forall (fun now => windowStart_of rule now = w) times ->
  forall rate_limits,
    maxRequests rule <= seen ip endpoint rate_limits w ->
    checks cfg ip endpoint times rate_limits
    = (List.map (fun _ => answer rule w (seen ip endpoint rate_limits w)) times, rate_limits).
Proof.
  induction 1 as [| now times Hnow _ IH]; intros rate_limits Hfull; [reflexivity |].
  cbn [checks List.map]. rewrite check_seen. cbv zeta. rewrite Hnow.
  destruct (Z.ltb_spec (seen ip endpoint rate_limits w) (maxRequests rule)); [lia |].
  now rewrite IH.
Qed.

Lemma checks_run (times : list Z) (w : Z) :
  Forall (fun now => windowStart_of rule now = w) times ->
  forall rate_limits,
    0 <= seen ip endpoint rate_limits w <= maxRequests rule ->
    let c := seen ip endpoint rate_limits w in
    let r := checks cfg ip endpoint times rate_limits in
    fst r = List.map (fun i => answer rule w (Z.min (c + Z.of_nat i) (maxRequests rule)))
                     (seq 0 (length times))
    /\ seen ip endpoint (snd r) w = Z.min (c + Z.of_nat (length times)) (maxRequests rule)
    /\ snd r = snd (checks cfg ip endpoint
                      (firstn (Z.to_nat (maxRequests rule - c)) times) rate_limits).
Proof.
  induction 1 as [| now times Hnow Hall IH]; intros rate_limits Hc; cbv zeta.
  - cbn [checks length seq List.map fst snd]. rewrite firstn_nil. cbn [checks fst snd].
    repeat split. lia.
  - cbn [checks length]. rewrite check_seen. cbv zeta. rewrite Hnow.
    destruct (Z.ltb_spec (seen ip endpoint rate_limits w) (maxRequests rule)) as [Hlt | Hge].
    + set (t1 := <[key := {| count := Some (seen ip endpoint rate_limits w + 1);
                             window_start := Some w |}]> rate_limits).
      assert (Hs1 : seen ip endpoint t1 w = seen ip endpoint rate_limits w + 1).
      { unfold seen at 1. subst t1. fold key. now rewrite counter_insert. }
      destruct (IH t1) as (H1 & H2 & H3); [lia |].
      replace (Z.to_nat (maxRequests rule - seen ip endpoint rate_limits w))
        with (S (Z.to_nat (maxRequests rule - seen ip endpoint t1 w))) by lia.
      cbn [firstn checks]. rewrite check_seen. cbv zeta. rewrite Hnow.
      destruct (Z.ltb_spec (seen ip endpoint rate_limits w) (maxRequests rule)); [| lia].
      fold t1.
      destruct (checks cfg ip endpoint times t1) as [rs t2].
      destruct (checks cfg ip endpoint (firstn _ times) t1) as [rs' t2'].
      cbn [fst snd] in *. subst rs. rewrite H2, Hs1.
      split; [| split; [lia | exact H3]].
      cbn [seq List.map]. f_equal.
      * f_equal. lia.
      * rewrite <- seq_shift, List.map_map. apply List.map_ext. intros i.
        f_equal. lia.
    + rewrite (checks_full times w Hall rate_limits Hge).
      replace (Z.to_nat (maxRequests rule - seen ip endpoint rate_limits w)) with O by lia.
      cbn [firstn checks fst snd]. split; [| split; [lia | reflexivity]].
      assert (Hconst : forall k,
                 List.map (fun _ : Z => answer rule w (seen ip endpoint rate_limits w)) times
                 = List.map (fun i : nat =>
                               answer rule w (Z.min (seen ip endpoint rate_limits w + Z.of_nat i)
                                                    (maxRequests rule)))
                            (seq k (length times))).
      { clear -Hc Hge. induction times as [| t ts IHts]; intros k; cbn; [reflexivity |].
        f_equal; [f_equal; lia | apply IHts]. }
      cbn [seq List.map]. f_equal; [f_equal; lia | apply Hconst].
Qed.

Lemma checks_keeps_counter (times : list Z) (w : Z) :
  Forall (fun now => windowStart_of rule now = w) times ->
  forall rate_limits c,
    counter rate_limits key w = Some c ->
    exists c', counter (snd (checks cfg ip endpoint times rate_limits)) key w = Some c'.
Proof.
  induction 1 as [| now times Hnow _ IH]; intros rate_limits c Hc; [eauto |].
  cbn [checks]. rewrite check_seen. cbv zeta. rewrite Hnow.
  destruct (seen ip endpoint rate_limits w <? maxRequests rule).
  - destruct (IH _ _ (counter_insert rate_limits (seen ip endpoint rate_limits w + 1) w)) as [c' Hc'].
    destruct (checks cfg ip endpoint times _) as [rs t2]. eauto.
  - destruct (IH _ _ Hc) as [c' Hc'].
    destruct (checks cfg ip endpoint times _) as [rs t2]. eauto.
Qed.

Lemma answer_min (w i : Z) :
  0 <= i -> answer rule w (Z.min i (maxRequests rule)) = answer rule w i.
Proof.
  intros Hi. unfold answer. f_equal.
  - destruct (Z.ltb_spec (Z.min i (maxRequests rule)) (maxRequests rule)),
             (Z.ltb_spec i (maxRequests rule)); lia || reflexivity.
  - lia.
Qed.

(** C2. Rate limiting is enabled and [endpoint] has a rule
    with [maxRequests >= 1] and a non-zero [windowSeconds]. Take any calls of
    [check] for one client and endpoint whose clock readings fall in the
    same window, starting when no counter is stored for that window (no
    row, or a row of another window). Then the i-th call (from 0) is
    allowed iff [i < maxRequests] and reports
    [remaining = max(0, maxRequests - i - 1)]: the first call is allowed
    with [remaining = maxRequests - 1]; after the calls the stored counter
    is [min(n, maxRequests)] (1 after the first call); and the table is
    the one left by the first [maxRequests] calls, so the denied calls
    changed nothing. *)
Theorem check_fixed_window :
  forall (rate_limits : gmap string Row) (times : list Z) (w : Z),
    1 <= maxRequests rule ->
    windowSeconds rule <> 0 ->
    Forall (fun now => windowStart_of rule now = w) times ->
    counter rate_limits (key_of ip endpoint) w = None ->
    let r := checks cfg ip endpoint times rate_limits in
    fst r = List.map (fun i => answer rule w (Z.of_nat i)) (seq 0 (length times))
    /\ answer rule w 0
       = {| allowed := true; limit := maxRequests rule;
            remaining := maxRequests rule - 1; resetAt := w + windowSeconds rule |}
    /\ counter (snd r) (key_of ip endpoint) w
       = (if is_nil times then None
          else Some (Z.min (Z.of_nat (length times)) (maxRequests rule)))
    /\ snd r = snd (checks cfg ip endpoint
                      (firstn (Z.to_nat (maxRequests rule)) times) rate_limits).
Proof.
  intros rate_limits times w Hmax Hws Hall Hfresh r.
  assert (Hseen : seen ip endpoint rate_limits w = 0) by (unfold seen; now rewrite Hfresh).
  destruct (checks_run times w Hall rate_limits) as (H1 & H2 & H3); [lia |].
  cbv zeta in H1, H2, H3. rewrite Hseen in H1, H2, H3. fold r in H1, H2, H3.
  split; [| split; [| split]].
  - rewrite H1. apply List.map_ext. intros i. rewrite Z.add_0_l. apply answer_min. lia.
  - unfold answer. f_equal; [| lia].
    destruct (Z.ltb_spec 0 (maxRequests rule)); [reflexivity | lia].
  - destruct times as [| now times']; [exact Hfresh |]. cbn [is_nil].
    assert (Hex : exists c', counter (snd r) key w = Some c').
    { subst r. cbn [checks]. rewrite check_seen. cbv zeta.
      inversion Hall as [| ? ? Hnow Hall']; subst. rewrite Hseen.
      destruct (Z.ltb_spec 0 (maxRequests rule)); [| lia].
      destruct (checks_keeps_counter times' _ Hall' _ _
                  (counter_insert rate_limits (0 + 1) (windowStart_of rule now))) as [c' Hc'].
      destruct (checks cfg ip endpoint times' _) as [rs t2]. eauto. }
    destruct Hex as [c' Hc']. fold key. rewrite Hc'. f_equal.
    unfold seen in H2. fold key in H2. rewrite Hc' in H2. lia.
  - rewrite H3. now rewrite Z.sub_0_r.
Qed.

End RateLimitFacts.

Lemma check_fixed_window_witness :
  RateLimit.enabled RateLimit.sample_config = true
  /\ RateLimit.limits RateLimit.sample_config !! "GET /v1/events" = Some RateLimit.sample_rule
  /\ 1 <= RateLimit.maxRequests RateLimit.sample_rule
  /\ RateLimit.windowSeconds RateLimit.sample_rule <> 0
  /\ Forall (fun now => RateLimit.windowStart_of RateLimit.sample_rule now = 120)
            [120; 130; 150; 179]
  /\ List.map RateLimit.allowed
       (fst (RateLimit.checks RateLimit.sample_config "1.2.3.4" "GET /v1/events"
               [120; 130; 150; 179] ∅))
     = [true; true; true; false]
  /\ List.map RateLimit.remaining
       (fst (RateLimit.checks RateLimit.sample_config "1.2.3.4" "GET /v1/events"
               [120; 130; 150; 179] ∅))
     = [2; 1; 0; 0]
  /\ RateLimit.counter
       (snd (RateLimit.checks RateLimit.sample_config "1.2.3.4" "GET /v1/events"
               [120; 130; 150; 179] ∅))
       (RateLimit.key_of "1.2.3.4" "GET /v1/events") 120
     = Some 3.
Proof.
  assert (Hall : Forall (fun now => RateLimit.windowStart_of RateLimit.sample_rule now = 120)
                        [120; 130; 150; 179]) by (repeat constructor).
  assert (Hfresh : RateLimit.counter (∅ : gmap string RateLimit.Row)
                     (RateLimit.key_of "1.2.3.4" "GET /v1/events") 120 = None)
    by reflexivity.
  destruct (check_fixed_window RateLimit.sample_config "1.2.3.4" "GET /v1/events"
              RateLimit.sample_rule eq_refl eq_refl ∅ [120; 130; 150; 179] 120
              ltac:(simpl; lia) ltac:(discriminate) Hall Hfresh)
    as (Hres & _ & Hcount & _).
  split; [reflexivity |]. split; [reflexivity |].
  split; [simpl; lia |]. split; [discriminate |]. split; [exact Hall |].
  split; [rewrite Hres; reflexivity |]. split; [rewrite Hres; reflexivity |].
  exact Hcount.
Defined.

(** C2, as stated, fails for a rule that admits nothing: under
    [{maxRequests: 0, windowSeconds: 60}] the very first call of a
    window is denied and no counter is stored. *)
Lemma first_call_denied_under_zero_rule :
  RateLimit.getRateLimit RateLimit.closed_config "GET /v1/events"
  = Some {| RateLimit.maxRequests := 0; RateLimit.windowSeconds := 60 |}
  /\ RateLimit.allowed
       (fst (RateLimit.check RateLimit.closed_config "1.2.3.4" "GET /v1/events" 120 ∅))
     = false
  /\ snd (RateLimit.check RateLimit.closed_config "1.2.3.4" "GET /v1/events" 120 ∅) = ∅.
Proof. repeat split. Qed.

(** ** Metrics rollup *)

Section MetricsFacts.
Import JS Metrics.
Context {host : Host}.
Variable arrange : list GroupRow -> list GroupRow.

Lemma apply_writes_lookup (ups : list (RollupKey * RollupValue)) :
  forall (table : gmap RollupKey RollupValue) (k : RollupKey),
    apply_writes ups table !! k
    = match last_write k ups with
      | Some v => Some v
      | None => table !! k
      end.
Proof.
  induction ups as [| [k' v] ups IH]; intros table k; [reflexivity |].
  unfold apply_writes in *. cbn [fold_left last_write fst snd].
  rewrite IH. destruct (last_write k ups); [reflexivity |].
  unfold upsert. rewrite lookup_insert. destruct (decide (k' = k)); reflexivity.
Qed.

(** Replaying the same upserts changes nothing. *)
Lemma apply_writes_idempotent (ups : list (RollupKey * RollupValue))
    (table : gmap RollupKey RollupValue) :
  apply_writes ups (apply_writes ups table) = apply_writes ups table.
Proof.
  apply map_eq. intros k. rewrite !apply_writes_lookup.
  destruct (last_write k ups); reflexivity.
Qed.

Lemma rollup_row_writes (w i : Z) (row : GroupRow) (table : gmap RollupKey RollupValue) :
  rollup_row w i row table = apply_writes (writes w i row) table.
Proof.
  unfold rollup_row, writes, apply_writes.
  destruct (g_avg_duration row); reflexivity.
Qed.

Lemma rollup_rows_writes (w i : Z) (rows : list GroupRow) :
  forall table : gmap RollupKey RollupValue,
    fold_left (fun t row => rollup_row w i row t) rows table
    = apply_writes (flat_map (writes w i) rows) table.
Proof.
  induction rows as [| row rows IH]; intros table; [reflexivity |].
  cbn [fold_left flat_map]. rewrite IH, rollup_row_writes.
  unfold apply_writes. now rewrite fold_left_app.
Qed.

(** C7. Two calls of [performRollup] at clock readings that map to the
    same [currentWindow], with the configuration and the contents of
    [request_logs] fixed, leave [metrics_rollup] after the second call
    exactly as it was after the first: every row, those of
    [requests_total] and [request_duration_avg] included, has the same
    key and the same [(value, count)]. [performRollup] itself does not
    touch [request_logs]. *)
Theorem performRollup_idempotent :
  forall (rollupInterval : string) (now1 done1 now2 done2 : Z) (st : State),
    currentWindow_of rollupInterval now1 = currentWindow_of rollupInterval now2 ->
    let st1 := performRollup arrange rollupInterval now1 done1 st in
    let st2 := performRollup arrange rollupInterval now2 done2 st1 in
    request_logs st1 = request_logs st
    /\ request_logs st2 = request_logs st
    /\ metrics_rollup st2 = metrics_rollup st1.
Proof.
  intros rollupInterval now1 done1 now2 done2 st Hwin st1 st2.
  split; [reflexivity |]. split; [reflexivity |].
  subst st2 st1. unfold performRollup. cbn [metrics_rollup request_logs].
  rewrite <- Hwin. rewrite !rollup_rows_writes. apply apply_writes_idempotent.
Qed.

End MetricsFacts.

Section MetricsExamples.
Import JS Metrics.
#[local] Existing Instance exampleHost.

(** The scenario of the specification: seven requests in the window
    [60, 120), the rollup run at 125 s and again at 170 s. *)
Lemma performRollup_idempotent_witness :
  currentWindow_of "1m" 125000 = currentWindow_of "1m" 170000
  /\ metrics_rollup
       (performRollup (fun rows => rows) "1m" 170000 170001
          (performRollup (fun rows => rows) "1m" 125000 125001 sample_state))
     = metrics_rollup (performRollup (fun rows => rows) "1m" 125000 125001 sample_state).
Proof.
  split; [reflexivity |].
  exact (proj2 (proj2 (performRollup_idempotent (fun rows => rows) "1m"
                         125000 125001 170000 170001 sample_state eq_refl))).
Defined.

Example rollup_requests_total :
  metrics_rollup (performRollup (fun rows => rows) "1m" 125000 125001 sample_state)
    !! (60, 60, "requests_total",
        JSON_stringify Number_toString
          (JObj [("endpoint", JStr "/v1/events"); ("status", JStr "200")]))
  = Some ((3 # 1)%Q, 1).
Proof. vm_compute. reflexivity. Qed.

End MetricsExamples.

(** ** Health check *)

Section HealthFacts.
Import JS Types Monitoring HealthRoutes.
Context {host : Host}.

Lemma FeedStatus_eqb_eq (a b : FeedStatus) : FeedStatus_eqb a b = true <-> a = b.
Proof. destruct a, b; simpl; split; congruence. Qed.

Lemma count_succeeds (db : Sql.Database) :
  (exists n, EventStore.count db = Normal n) <-> Sql.failing db = None.
Proof.
  unfold EventStore.count, SqliteAdapter.first, Sql.exec_count, bind.
  destruct (Sql.failing db); split.
  - intros [n Hn]. discriminate.
  - discriminate.
  - reflexivity.
  - intros _. eexists. reflexivity.
Qed.

(** [checkHealth] itself classifies by the heartbeat it is handed: the
    parser is healthy iff that heartbeat exists, its [lastParseTime] is
    a date and its age in whole seconds is strictly below
    [parserTimeoutSeconds]; the feeds iff the wolfx or the p2p
    connector is [connected]; the database iff [count()] returns;
    [healthy] is the conjunction of the three. *)
Lemma checkHealth_classifies
    (timeout : Z) (heartbeat : option Heartbeat) (states : FeedStates)
    (db : Sql.Database) (nowMs : Z) :
  let health := checkHealth timeout heartbeat states db nowMs in
  (parser (checks health) = true
   <-> exists hb t,
         heartbeat = Some hb
         /\ Date_getTime (lastParseTime hb) = Some t
         /\ (nowMs - t) / 1000 < timeout)
  /\ (feeds (checks health) = true
      <-> status (wolfx states) = connected \/ status (p2p states) = connected)
  /\ (database (checks health) = true <-> exists n, EventStore.count db = Normal n)
  /\ healthy health
     = parser (checks health) && feeds (checks health) && database (checks health).
Proof.
  intros health. subst health. unfold checkHealth. cbn [checks parser feeds database healthy].
  split; [| split; [| split; [| reflexivity]]].
  - unfold getHeartbeatAge. destruct heartbeat as [hb |].
    + destruct (Date_getTime (lastParseTime hb)) as [t |] eqn:Ht; cbn [Age_lt].
      * rewrite Z.ltb_lt. split.
        -- intros Hlt. exists hb, t. auto.
        -- intros (hb' & t' & Hhb & Ht' & Hlt). injection Hhb as <-.
           rewrite Ht in Ht'. injection Ht' as <-. exact Hlt.
      * split; [discriminate |].
        intros (hb' & t' & Hhb & Ht' & _). injection Hhb as <-. congruence.
    + cbn [Age_lt]. split; [discriminate |]. intros (hb & t & Hhb & _). discriminate.
  - rewrite orb_true_iff, !FeedStatus_eqb_eq. reflexivity.
  - destruct (EventStore.count db) as [n | e]; split.
    + intros _. now exists n.
    + reflexivity.
    + discriminate.
    + intros [n Hn]. discriminate.
Qed.

(** C5. [GET /health] hands [deps.parserHeartbeat] to [checkHealth],
    and the object behind [deps] has no such property: the heartbeat is
    kept in [deps.ingestService]. So for every state of the process and
    every clock reading, whatever heartbeat the ingest service holds
    and however young it is, the parser is reported unhealthy, the
    health object is not healthy and the answer is 503; a 200 is never
    sent. The feeds and the database are classified as described:
    feeds iff the wolfx or the p2p connector is [connected], database
    iff [count()] returns. *)
Theorem health_route_ignores_heartbeat :
  forall (deps : Deps) (nowMs : Z),
    let r := get_health deps nowMs in
    parser (checks (snd r)) = false
    /\ healthy (snd r) = false
    /\ fst r = 503
    /\ (feeds (checks (snd r)) = true
        <-> status (wolfx (feedStates deps)) = connected
            \/ status (p2p (feedStates deps)) = connected)
    /\ (database (checks (snd r)) = true
        <-> exists n, EventStore.count (store deps) = Normal n).
Proof.
  intros deps nowMs r.
  destruct (checkHealth_classifies (parserTimeoutSeconds deps) (parserHeartbeat deps)
              (feedStates deps) (store deps) nowMs) as (Hp & Hf & Hd & Hh).
  assert (Hparser : parser (checks (snd r)) = false).
  { subst r. unfold get_health. cbn [snd].
    apply not_true_is_false. intros E.
    apply Hp in E. destruct E as (hb & t & Hhb & _). discriminate. }
  assert (Hhealthy : healthy (snd r) = false).
  { subst r. unfold get_health in *. cbn [snd] in *. rewrite Hh, Hparser. reflexivity. }
  split; [exact Hparser |]. split; [exact Hhealthy |].
  subst r. unfold get_health in *. cbn [fst snd] in *.
  split; [now rewrite Hhealthy |]. split; [exact Hf | exact Hd].
Qed.

End HealthFacts.

(** ** The allow-list of the P2P feed *)

Section FeedFacts.
Import JS Types Normalizers FeedManager.
Context {host : Host}.

Lemma includes_code_allowed (c : Q) :
  includes_code c ALLOWED_CODES = true
  <-> (c == 551 \/ c == 552 \/ c == 556 \/ c == 561)%Q.
Proof.
  unfold includes_code, ALLOWED_CODES. cbn [existsb].
  rewrite !orb_true_iff, !Qeq_bool_iff. intuition discriminate.
Qed.

(** C4. For every inbound P2P frame that carries a numeric
    code, the allow-list {551, 552, 556, 561} is enforced: a frame whose
    code is outside this set (9611 included) hands nothing to ingest,
    and a frame whose code is in the set is normalized and handed to
    ingest when normalization succeeds. *)
Theorem p2p_allow_list :
  forall (fields : list (string * json)) (code : Q) (clock : nat -> Z),
    get "code" fields = Some (JNum code) ->
    handleP2pMessage (JObj fields) clock
    = (if includes_code code ALLOWED_CODES
       then match normalizeP2pEvent (JObj fields) clock with
            | Some event => [event]
            | None => []
            end
       else [])
    /\ (includes_code code ALLOWED_CODES = true
        <-> (code == 551 \/ code == 552 \/ code == 556 \/ code == 561)%Q)
    /\ includes_code 9611 ALLOWED_CODES = false.
Proof.
  intros fields code clock Hcode. split; [| split].
  - unfold handleP2pMessage. cbn [json_truthy negb]. rewrite Hcode.
    destruct (includes_code code ALLOWED_CODES); reflexivity.
  - apply includes_code_allowed.
  - reflexivity.
Qed.

End FeedFacts.

Section FeedExamples.
Import JS Types Normalizers FeedManager.
#[local] Existing Instance exampleHost.

Lemma p2p_allow_list_witness :
  get "code" [ ("code", JNum 551); ("id", JStr "q-1"); ("time", JStr "2024-01-01T00:00:00Z") ]
  = Some (JNum 551)
  /\ List.map eventId
       (handleP2pMessage
          (JObj [ ("code", JNum 551); ("id", JStr "q-1");
                  ("time", JStr "2024-01-01T00:00:00Z") ])
          (fun _ => 1000))
     = ["q-1"].
Proof.
  split; [reflexivity |].
  rewrite (proj1 (p2p_allow_list
                    [ ("code", JNum 551); ("id", JStr "q-1");
                      ("time", JStr "2024-01-01T00:00:00Z") ]
                    551 (fun _ => 1000) eq_refl)).
  reflexivity.
Defined.

(** C4, as stated, fails at code 9611: the normalizer turns the frame
    into a user-report event, but [handleP2pMessage] drops the frame
    before it is normalized. *)
Lemma code_9611_is_dropped :
  option_map eventId (normalizeP2pEvent frame9611 (fun _ => 1000)) = Some "u-1"
  /\ option_map type (normalizeP2pEvent frame9611 (fun _ => 1000)) = Some "UserReport"
  /\ handleP2pMessage frame9611 (fun _ => 1000) = [].
Proof. repeat split. Qed.

Example frame551_is_ingested :
  List.map (fun ev => (eventId ev, type ev, region ev))
           (handleP2pMessage frame551 (fun _ => 1000))
  = [("q-1", "information", Some "Noto")].
Proof. reflexivity. Qed.

End FeedExamples.

(** ** Feed connectors: invariants and session accounting *)

Section ConnectorInvariants.
Import Types Connector.

Lemma run_in_range (evs : list Event) :
  forall c, in_range (backoff c) ->
    in_range (backoff (fst (run evs c)))
    /\ Forall in_range (delays (snd (run evs c))).
Proof.
  unfold in_range, BASE_BACKOFF_MS, MAX_BACKOFF_MS.
  induction evs as [| e evs IH]; intros c Hc; [split; [exact Hc | constructor] |].
  cbn [run]. rewrite andThen_fst, andThen_snd, delays_app.
  assert (Hstep : 2000 <= backoff (fst (step e c)) <= 60000
                  /\ Forall (fun d => 2000 <= d <= 60000) (delays (snd (step e c)))).
  { destruct (is_open e) eqn:Hopen.
    - destruct e as [ctor | now | now data | now | now | now | now | ctor];
        try discriminate. cbn [step].
      unfold onOpen, andThen, updateState, armPing, resetInactivityTimer, with_state,
        BASE_BACKOFF_MS.
      destruct (pingTimer c); cbn; (split; [lia | constructor]).
    - destruct (step_delay e c Hopen) as [[Hd Hb] | [Hd Hb]]; rewrite Hd, Hb.
      + split; [exact Hc | constructor].
      + unfold MAX_BACKOFF_MS. split; [lia |]. constructor; [exact Hc | constructor]. }
  destruct Hstep as [Hb Hd]. destruct (IH _ Hb) as [Hb' Hd'].
  split; [exact Hb' |]. apply Forall_app. split; assumption.
Qed.

(** X1. Whatever happens to a connector from its construction on, in
    any order and across any number of opens, its backoff stays between
    2 s and 60 s, and every reconnect it schedules is delayed by at
    least 2 s and at most 60 s. *)
Theorem reconnect_delays_in_range :
  forall evs : list Event,
    let r := run evs new_WebSocketConnector in
    in_range (backoff (fst r)) /\ Forall in_range (delays (snd r)).
Proof.
  intros evs. apply run_in_range.
  unfold in_range. cbn. unfold BASE_BACKOFF_MS, MAX_BACKOFF_MS. lia.
Qed.

(** X2. From any state of a connector, as long as no socket opens,
    whatever else happens (frames, errors, closes, watchdog and timer
    firings, failed sends, in any order), the reconnect delays that get
    scheduled are the capped doubling sequence that starts at the
    connector's current backoff. *)
Theorem reconnects_double_until_open :
  forall (evs : list Event) (c : WebSocketConnector),
    forallb (fun e => negb (is_open e)) evs = true ->
    delays (snd (run evs c))
    = backoff_seq (backoff c) (length (delays (snd (run evs c)))).
Proof. intros evs c Hfree. now apply open_free_delays. Qed.

Lemma reconnects_double_until_open_witness :
  forallb (fun e => negb (is_open e))
    [ Start (JS.Normal tt); SocketMessage 5 (JS.Throw "bad"); SocketError 10; SocketClose 11;
      ReconnectTimer (JS.Throw "refused"); Inactivity 20; ReconnectTimer (JS.Normal tt);
      SocketClose 30 ] = true
  /\ delays (snd (run
        [ Start (JS.Normal tt); SocketMessage 5 (JS.Throw "bad"); SocketError 10; SocketClose 11;
          ReconnectTimer (JS.Throw "refused"); Inactivity 20; ReconnectTimer (JS.Normal tt);
          SocketClose 30 ] new_WebSocketConnector))
     = [2000; 4000; 8000].
Proof.
  split; [reflexivity |].
  pose proof (reconnects_double_until_open
                [ Start (JS.Normal tt); SocketMessage 5 (JS.Throw "bad"); SocketError 10;
                  SocketClose 11; ReconnectTimer (JS.Throw "refused"); Inactivity 20;
                  ReconnectTimer (JS.Normal tt); SocketClose 30 ]
                new_WebSocketConnector eq_refl) as E.
  rewrite E. reflexivity.
Defined.

Ltac chain :=
  repeat (rewrite ?andThen_fst, ?andThen_snd, ?delays_app; cbv beta).

Lemma message_core (now : Z) (data : JS.Completion JS.json) (c : WebSocketConnector) :
  core (fst (step (SocketMessage now data) c)) = core c
  /\ delays (snd (step (SocketMessage now data) c)) = [].
Proof. destruct data; split; reflexivity. Qed.

Lemma messages_core (ms : list (Z * JS.Completion JS.json)) :
  forall c : WebSocketConnector,
    core (fst (run (List.map (fun m => SocketMessage (fst m) (snd m)) ms) c)) = core c
    /\ delays (snd (run (List.map (fun m => SocketMessage (fst m) (snd m)) ms) c)) = [].
Proof.
  induction ms as [| [now data] ms IH]; intros c; [split; reflexivity |].
  cbn [List.map run fst snd]. rewrite andThen_fst, andThen_snd, delays_app.
  destruct (message_core now data c) as [Hc Hd].
  destruct (IH (fst (step (SocketMessage now data) c))) as [Hc' Hd'].
  rewrite Hc', Hd', Hd, Hc. split; reflexivity.
Qed.

Lemma opened_core (first : bool) (now : Z) (c : WebSocketConnector) :
  ready first c ->
  core (fst (run (opened first now) c))
  = (connected, Some now, disconnectedAt (state c), reconnectCount (state c) + prior c,
     totalUptime (state c), BASE_BACKOFF_MS, None)
  /\ delays (snd (run (opened first now) c)) = [].
Proof.
  intros Hr. unfold opened. cbn [run].
  assert (Hstart : exists c0,
             step (attempt_start first (JS.Normal tt)) c = connect (JS.Normal tt) c0
             /\ reconnectTimer c0 = None /\ state c0 = state c).
  { destruct first; simpl in *.
    - destruct Hr as [Ht Hs]. exists c. split; [| auto].
      destruct (status (state c)); simpl; congruence.
    - destruct Hr as [t Ht]. rewrite Ht. unfold onReconnectTimer.
      eexists. split; [reflexivity |]. split; reflexivity. }
  destruct Hstart as (c0 & Hstep & Ht0 & Hs0). rewrite Hstep.
  unfold connect, step, onOpen, andThen, updateState, armPing, resetInactivityTimer,
    with_state, core, prior. simpl. rewrite Hs0, Ht0.
  destruct (pingTimer c0), (disconnectedAt (state c)); simpl; rewrite ?Z.add_0_r; auto.
Qed.

Lemma close_core (now t : Z) (c : WebSocketConnector) :
  status (state c) = connected ->
  connectedAt (state c) = Some t ->
  reconnectTimer c = None ->
  core (fst (step (SocketClose now) c))
  = (disconnected, Some t, Some now, reconnectCount (state c),
     totalUptime (state c) + (now - t), Z.min (backoff c * 2) MAX_BACKOFF_MS,
     Some (backoff c))
  /\ delays (snd (step (SocketClose now) c)) = [backoff c].
Proof.
  intros Hs Hc Ht. cbn [step].
  unfold handleClose, andThen, cleanupSocket, updateState, scheduleReconnect, with_state, core.
  simpl. rewrite Hs, Hc, Ht. simpl. destruct (socket c); simpl; auto.
Qed.

Lemma session_core (first : bool) (s : Session) (c : WebSocketConnector) :
  ready first c ->
  core (fst (run (session_events first s) c))
  = (disconnected, Some (opened_at s), Some (closed_at s),
     reconnectCount (state c) + prior c,
     totalUptime (state c) + (closed_at s - opened_at s),
     Z.min (BASE_BACKOFF_MS * 2) MAX_BACKOFF_MS, Some BASE_BACKOFF_MS)
  /\ delays (snd (run (session_events first s) c)) = [BASE_BACKOFF_MS].
Proof.
  intros Hr. unfold session_events.
  rewrite run_app. chain. rewrite run_app. chain. cbn [run]. chain.
  cbn [fst snd delays].
  destruct (opened_core first (opened_at s) c Hr) as [Ho Hod].
  set (c1 := fst (run (opened first (opened_at s)) c)) in *.
  destruct (messages_core (traffic s) c1) as [Hm Hmd].
  set (c2 := fst (run (List.map (fun m => SocketMessage (fst m) (snd m)) (traffic s)) c1)) in *.
  rewrite Ho in Hm. unfold core in Hm at 1. injection Hm as H1 H2 H3 H4 H5 H6 H7.
  destruct (close_core (closed_at s) (opened_at s) c2 H1 H2 H7) as [Hc Hcd].
  rewrite Hc, Hcd, Hod, Hmd, H4, H5, H6. rewrite app_nil_r. split; reflexivity.
Qed.

Lemma sessions_core (ss : list Session) :
  forall (first : bool) (c : WebSocketConnector),
    ready first c ->
    let c' := fst (run (sessions first ss) c) in
    totalUptime (state c') = totalUptime (state c) + session_uptime ss
    /\ reconnectCount (state c')
       = reconnectCount (state c)
         + (if is_nil ss then 0 else Z.of_nat (length ss) - 1 + prior c)
    /\ status (state c') = (if is_nil ss then status (state c) else disconnected)
    /\ delays (snd (run (sessions first ss) c)) = repeat BASE_BACKOFF_MS (length ss).
Proof.
  induction ss as [| s ss IH]; intros first c Hr; cbv zeta.
  - cbn. rewrite !Z.add_0_r. auto.
  - cbn [sessions is_nil length session_uptime fold_right repeat].
    rewrite run_app, andThen_fst, andThen_snd, delays_app.
    destruct (session_core first s c Hr) as [Hc Hd].
    set (c1 := fst (run (session_events first s) c)) in *.
    unfold core in Hc. injection Hc as H1 H2 H3 H4 H5 H6 H7.
    assert (Hr1 : ready false c1) by (unfold ready; eauto).
    destruct (IH false c1 Hr1) as (I1 & I2 & I3 & I4). cbv zeta in *.
    rewrite I1, I2, I3, I4, Hd, H4, H5.
    assert (Hp : prior c1 = 1) by (unfold prior; now rewrite H3).
    rewrite Hp. fold (session_uptime ss).
    repeat split.
    + lia.
    + destruct ss; cbn [is_nil length]; lia.
    + destruct ss; cbn [is_nil]; [exact H1 | reflexivity].
Qed.

(** X3. A feed that connects, receives frames and loses its socket,
    session after session: the total uptime is the sum of the session
    lengths, the reconnect count is the number of sessions after the
    first one (the first connection is not a reconnect), the connector
    ends up [disconnected], and each loss schedules a reconnect after
    the base delay of 2 s, because every open resets the backoff. *)
Theorem session_accounting :
  forall ss : list Session,
    let r := run (sessions true ss) new_WebSocketConnector in
    totalUptime (state (fst r)) = session_uptime ss
    /\ reconnectCount (state (fst r)) = Z.max 0 (Z.of_nat (length ss) - 1)
    /\ status (state (fst r)) = (if is_nil ss then connecting else disconnected)
    /\ delays (snd r) = repeat 2000 (length ss).
Proof.
  intros ss r. subst r.
  assert (Hnew : ready true new_WebSocketConnector) by (split; [reflexivity | discriminate]).
  destruct (sessions_core ss true _ Hnew) as (H1 & H2 & H3 & H4). cbv zeta in *.
  rewrite H1, H2, H3, H4. cbn [new_WebSocketConnector state initial_state totalUptime
                                reconnectCount status prior disconnectedAt].
  repeat split.
  destruct ss; cbn [is_nil length]; lia.
Qed.

End ConnectorInvariants.
(** ** Event store: queries *)

Section StringOrder.

Lemma String_leb_refl (s : string) : String.leb s s = true.
Proof.
  unfold String.leb. induction s as [| c s IH]; [reflexivity |]. cbn.
  unfold Ascii.compare. now rewrite N.compare_refl.
Qed.

Lemma String_leb_trans (a b c : string) :
  String.leb a b = true -> String.leb b c = true -> String.leb a c = true.
Proof.
  unfold String.leb. revert b c.
  induction a as [| x a IH]; intros [| y b] [| z c]; cbn; try congruence.
  unfold Ascii.compare.
  destruct (N.compare_spec (N_of_ascii x) (N_of_ascii y)) as [Hxy | Hxy | Hxy];
    destruct (N.compare_spec (N_of_ascii y) (N_of_ascii z)) as [Hyz | Hyz | Hyz];
    destruct (N.compare_spec (N_of_ascii x) (N_of_ascii z)) as [Hxz | Hxz | Hxz];
    try congruence; try lia; try (intros; apply (IH b c); assumption).
Qed.

Lemma String_ltb_leb (a b : string) : String.ltb a b = negb (String.leb b a).
Proof.
  unfold String.ltb, String.leb. rewrite (String.compare_antisym a b).
  now destruct (String.compare b a).
Qed.

Lemma String_ltb_le (a b : string) : String.ltb a b = true -> String.leb a b = true.
Proof. unfold String.ltb, String.leb. now destruct (String.compare a b). Qed.

End StringOrder.

Section QueryFacts.
Import JS Types.

Import Sql (newest_first, oldest_first).

Lemma insert_desc_perm (r : EventRecord) (l : list EventRecord) :
  Permutation (r :: l) (Sql.insert_desc r l).
Proof.
  induction l as [| x l IH]; cbn; [reflexivity |].
  destruct (String.ltb (time x) (time r)); [reflexivity |].
  rewrite perm_swap. now apply perm_skip.
Qed.

Lemma insert_desc_sorted (r : EventRecord) (l : list EventRecord) :
  newest_first l -> newest_first (Sql.insert_desc r l).
Proof.
  unfold newest_first, oldest_first. induction 1 as [| x l Hl IH Hx]; cbn.
  - constructor; constructor.
  - destruct (String.ltb (time x) (time r)) eqn:Hlt.
    + constructor; [now constructor |].
      apply String_ltb_le in Hlt. constructor; [exact Hlt |].
      eapply Forall_impl; [exact Hx |]. cbv beta. intros y Hy.
      eapply String_leb_trans; eassumption.
    + constructor; [exact IH |].
      rewrite <- (insert_desc_perm r l). constructor; [| exact Hx].
      rewrite String_ltb_leb in Hlt. now apply negb_false_iff in Hlt.
Qed.

Lemma order_desc_spec (rows : list EventRecord) :
  forall acc, newest_first acc ->
    newest_first (fold_left (fun a r => Sql.insert_desc r a) rows acc)
    /\ Permutation (rows ++ acc) (fold_left (fun a r => Sql.insert_desc r a) rows acc).
Proof.
  unfold newest_first, oldest_first. induction rows as [| r rows IH]; intros acc Hacc; cbn [fold_left].
  - split; [exact Hacc | reflexivity].
  - destruct (IH (Sql.insert_desc r acc) (insert_desc_sorted r acc Hacc)) as [Hs Hp].
    split; [exact Hs |]. rewrite <- Hp, <- insert_desc_perm.
    cbn. now rewrite Permutation_middle.
Qed.

Lemma order_by_time_desc_sorted (rows : list EventRecord) :
  newest_first (Sql.order_by_time_desc rows).
Proof. apply order_desc_spec. constructor. Qed.

Lemma order_by_time_desc_perm (rows : list EventRecord) :
  Permutation rows (Sql.order_by_time_desc rows).
Proof.
  destruct (order_desc_spec rows [] ltac:(constructor)) as [_ Hp].
  now rewrite app_nil_r in Hp.
Qed.

Lemma insert_asc_perm (r : EventRecord) (l : list EventRecord) :
  Permutation (r :: l) (Sql.insert_asc r l).
Proof.
  induction l as [| x l IH]; cbn; [reflexivity |].
  destruct (String.ltb (time r) (time x)); [reflexivity |].
  rewrite perm_swap. now apply perm_skip.
Qed.

Lemma insert_asc_sorted (r : EventRecord) (l : list EventRecord) :
  oldest_first l -> oldest_first (Sql.insert_asc r l).
Proof.
  unfold newest_first, oldest_first. induction 1 as [| x l Hl IH Hx]; cbn.
  - constructor; constructor.
  - destruct (String.ltb (time r) (time x)) eqn:Hlt.
    + constructor; [now constructor |].
      apply String_ltb_le in Hlt. constructor; [exact Hlt |].
      eapply Forall_impl; [exact Hx |]. cbv beta. intros y Hy.
      eapply String_leb_trans; eassumption.
    + constructor; [exact IH |].
      rewrite <- (insert_asc_perm r l). constructor; [| exact Hx].
      rewrite String_ltb_leb in Hlt. now apply negb_false_iff in Hlt.
Qed.

Lemma order_asc_spec (rows : list EventRecord) :
  forall acc, oldest_first acc ->
    oldest_first (fold_left (fun a r => Sql.insert_asc r a) rows acc)
    /\ Permutation (rows ++ acc) (fold_left (fun a r => Sql.insert_asc r a) rows acc).
Proof.
  unfold newest_first, oldest_first. induction rows as [| r rows IH]; intros acc Hacc; cbn [fold_left].
  - split; [exact Hacc | reflexivity].
  - destruct (IH (Sql.insert_asc r acc) (insert_asc_sorted r acc Hacc)) as [Hs Hp].
    split; [exact Hs |]. rewrite <- Hp, <- insert_asc_perm.
    cbn. now rewrite Permutation_middle.
Qed.

Lemma order_by_time_asc_sorted (rows : list EventRecord) :
  oldest_first (Sql.order_by_time_asc rows).
Proof. apply order_asc_spec. constructor. Qed.

Lemma order_by_time_asc_perm (rows : list EventRecord) :
  Permutation rows (Sql.order_by_time_asc rows).
Proof.
  destruct (order_asc_spec rows [] ltac:(constructor)) as [_ Hp].
  now rewrite app_nil_r in Hp.
Qed.

Lemma insert_loop_consistent (evs : list EventRecord) :
  forall (n : Z) (rows : list EventRecord),
    NoDup (List.map eventId rows) ->
    exists added,
      EventStore.insert_loop evs n {| Sql.failing := None; Sql.events := rows |}
      = Normal (n + Z.of_nat (length evs),
                {| Sql.failing := None; Sql.events := (rows ++ added)%list |})
      /\ NoDup (List.map eventId (rows ++ added))
      /\ (forall e, In e evs -> Sql.has_event (eventId e) (rows ++ added) = true)
      /\ (forall r, In r added -> In (eventId r) (List.map eventId evs)).
Proof.
  induction evs as [| ev evs IH]; intros n rows Hnd.
  - exists []. rewrite app_nil_r, Z.add_0_r. cbn. repeat split; [exact Hnd | | ]; intros ? [].
  - cbn [EventStore.insert_loop]. unfold SqliteAdapter.run, Sql.exec_insert_or_ignore.
    cbn [Sql.failing Sql.events bind fst snd SqliteAdapter.changes].
    assert (Hmono : forall id l l', Sql.has_event id l = true ->
                                    Sql.has_event id (l ++ l') = true).
    { intros id l l' H. unfold Sql.has_event in *. rewrite existsb_app, H. reflexivity. }
    destruct (Sql.has_event (eventId ev) rows) eqn:Hin; cbn [bind fst snd SqliteAdapter.changes].
    + destruct (IH (n + 1) rows Hnd) as (added & Hrun & Hnd' & Hall & Hsub).
      exists added. rewrite Hrun. repeat split.
      * f_equal. f_equal. cbn [length]. lia.
      * exact Hnd'.
      * intros e [<- | He]; [now apply Hmono | now apply Hall].
      * intros r Hr. cbn [List.map]. right. now apply Hsub.
    + destruct (IH (n + 1) (rows ++ [ev])%list) as (added & Hrun & Hnd' & Hall & Hsub).
      { rewrite List.map_app. cbn [List.map]. apply NoDup_app. split; [exact Hnd |].
        split; [| apply NoDup_singleton].
        intros id Hid Hid'. apply list_elem_of_singleton in Hid'. subst id.
        apply list_elem_of_In, in_map_iff in Hid. destruct Hid as (r & Hr & Hrin).
        assert (Hex : Sql.has_event (eventId ev) rows = true).
        { unfold Sql.has_event. apply existsb_exists. exists r. split; [exact Hrin |].
          now apply String.eqb_eq. }
        congruence. }
      exists ([ev] ++ added)%list. rewrite app_assoc, Hrun. repeat split.
      * f_equal. f_equal. cbn [length]. lia.
      * exact Hnd'.
      * intros e [<- | He]; [| now apply Hall].
        apply Hmono. unfold Sql.has_event. rewrite existsb_app. cbn.
        now rewrite String.eqb_refl, orb_true_r.
      * cbn [List.map]. intros r [<- | Hr]; [now left | right; now apply Hsub].
Qed.

(** X4. On a working store whose rows have pairwise different ids,
    [insert] only appends: the rows stored before stay where they are,
    every added row carries the id of an event of the batch, the ids
    stay pairwise different, and afterwards every id of the batch is
    stored. *)
Theorem insert_keeps_store_consistent :
  forall (evs rows : list EventRecord),
    NoDup (List.map eventId rows) ->
    exists n added,
      EventStore.insert evs {| Sql.failing := None; Sql.events := rows |}
      = Normal (n, {| Sql.failing := None; Sql.events := (rows ++ added)%list |})
      /\ NoDup (List.map eventId (rows ++ added))
      /\ (forall e, In e evs -> Sql.has_event (eventId e) (rows ++ added) = true)
      /\ (forall r, In r added -> In (eventId r) (List.map eventId evs)).
Proof.
  intros [| ev evs] rows Hnd.
  - exists 0, []. rewrite app_nil_r. cbn. repeat split; [exact Hnd | |]; intros ? [].
  - destruct (insert_loop_consistent (ev :: evs) 0 rows Hnd) as (added & Hrun & Hrest).
    eexists _, added. split; [exact Hrun | exact Hrest].
Qed.

Lemma insert_keeps_store_consistent_witness :
  NoDup (List.map eventId [Samples.evA])
  /\ exists n added,
      EventStore.insert [Samples.evA'; Samples.evB]
        {| Sql.failing := None; Sql.events := [Samples.evA] |}
      = Normal (n, {| Sql.failing := None; Sql.events := ([Samples.evA] ++ added)%list |})
      /\ NoDup (List.map eventId ([Samples.evA] ++ added))
      /\ (forall e, In e [Samples.evA'; Samples.evB] ->
            Sql.has_event (eventId e) ([Samples.evA] ++ added) = true)
      /\ (forall r, In r added ->
            In (eventId r) (List.map eventId [Samples.evA'; Samples.evB])).
Proof.
  assert (Hnd : NoDup (List.map eventId [Samples.evA])).
  { cbn. apply NoDup_singleton. }
  split; [exact Hnd |].
  exact (insert_keeps_store_consistent [Samples.evA'; Samples.evB] [Samples.evA] Hnd).
Defined.

Lemma sorted_head_bounds {R : EventRecord -> EventRecord -> Prop}
    (Hrefl : forall r, R r r) (x : EventRecord) (l rows : list EventRecord) :
  StronglySorted R (x :: l) -> Permutation rows (x :: l) ->
  In x rows /\ forall r, In r rows -> R x r.
Proof.
  intros Hs Hp. apply StronglySorted_inv in Hs. destruct Hs as [_ Hx].
  split.
  - apply (Permutation_in (l := x :: l)); [now symmetry | now left].
  - intros r Hr. apply (Permutation_in _ Hp) in Hr. destruct Hr as [<- | Hr]; [apply Hrefl |].
    rewrite List.Forall_forall in Hx. now apply Hx.
Qed.

(** X5. On a working store, [latest()] and [getOldestEvent()] answer
    [null] exactly when no row is stored; otherwise each answers a
    stored row, and the [time] of every stored row lies between the
    two, in the byte order of the column. *)
Theorem latest_and_oldest_bracket :
  forall rows : list EventRecord,
    let db := {| Sql.failing := None; Sql.events := rows |} in
    match EventStore.latest db, EventStore.getOldestEvent db with
    | Normal (Some hi), Normal (Some lo) =>
        In hi rows /\ In lo rows
        /\ forall r, In r rows ->
             String.leb (time lo) (time r) = true /\ String.leb (time r) (time hi) = true
    | Normal None, Normal None => rows = []
    | _, _ => False
    end.
Proof.
  intros rows db. unfold EventStore.latest, EventStore.getOldestEvent, SqliteAdapter.first,
    Sql.exec_select_recent, Sql.exec_select_oldest, EventStore.deserialize.
  cbn [db Sql.failing Sql.events bind].
  pose proof (order_by_time_desc_sorted rows) as Hd.
  pose proof (order_by_time_desc_perm rows) as Hdp.
  pose proof (order_by_time_asc_sorted rows) as Ha.
  pose proof (order_by_time_asc_perm rows) as Hap.
  destruct (Sql.order_by_time_desc rows) as [| hi dl].
  { apply Permutation_nil_r in Hdp. subst rows. reflexivity. }
  destruct (Sql.order_by_time_asc rows) as [| lo al].
  { apply Permutation_nil_r in Hap. subst rows. apply Permutation_nil in Hdp. discriminate. }
  cbn.
  destruct (sorted_head_bounds (R := fun a b => String.leb (time b) (time a) = true)
              (fun r => String_leb_refl (time r)) hi dl rows Hd Hdp) as [Hhi Hmax].
  destruct (sorted_head_bounds (R := fun a b => String.leb (time a) (time b) = true)
              (fun r => String_leb_refl (time r)) lo al rows Ha Hap) as [Hlo Hmin].
  repeat split; auto.
Qed.

Lemma where_clauses_of (query : EventStore.ListQuery) (r : EventRecord) :
  Sql.where_ (EventStore.clauses_of query) r = true ->
  (forall s, EventStore.since query = Some s -> s <> "" -> String.leb s (time r) = true)
  /\ (forall s, EventStore.until query = Some s -> s <> "" -> String.leb (time r) s = true)
  /\ (forall s, EventStore.source query = Some s -> s <> "" -> source_name (source r) = s)
  /\ (forall s, EventStore.type query = Some s -> s <> "" -> type r = s).
Proof.
  unfold Sql.where_, EventStore.clauses_of. rewrite !forallb_app.
  intros H. apply andb_true_iff in H. destruct H as [H1 H].
  apply andb_true_iff in H. destruct H as [H2 H].
  apply andb_true_iff in H. destruct H as [H3 H4].
  repeat split; intros s Hs Hne.
  - rewrite Hs in H1. destruct s; [congruence |]. cbn in H1. now rewrite andb_true_r in H1.
  - rewrite Hs in H2. destruct s; [congruence |]. cbn in H2. now rewrite andb_true_r in H2.
  - rewrite Hs in H3. destruct s; [congruence |]. cbn [forallb Sql.holds] in H3.
    rewrite andb_true_r in H3. now apply String.eqb_eq in H3.
  - rewrite Hs in H4. destruct s; [congruence |]. cbn [forallb Sql.holds] in H4.
    rewrite andb_true_r in H4. now apply String.eqb_eq in H4.
Qed.

Lemma map_deserialize (rows : list EventRecord) :
  List.map EventStore.deserialize rows = rows.
Proof. unfold EventStore.deserialize. induction rows; cbn; congruence. Qed.


Lemma length_by_source (rows : list EventRecord) :
  length rows
  = (length (List.filter (Sql.where_ [Sql.SourceEq "KMA"]) rows)
     + length (List.filter (Sql.where_ [Sql.SourceEq "JMA"]) rows)
     + length (List.filter (Sql.where_ [Sql.SourceEq "P2PQUAKE"]) rows))%nat.
Proof.
  induction rows as [| r rows IH]; [reflexivity |].
  cbn [List.filter Sql.where_ forallb Sql.holds length] in *.
  destruct (source r); cbn; lia.
Qed.

(** X7. On a working store, [count()] is the sum of [countBySource]
    over the three sources, and [countBySource] of any other name is 0. *)
Theorem count_splits_by_source :
  forall rows : list EventRecord,
    let db := {| Sql.failing := None; Sql.events := rows |} in
    exists k j p,
      EventStore.countBySource "KMA" db = Normal k
      /\ EventStore.countBySource "JMA" db = Normal j
      /\ EventStore.countBySource "P2PQUAKE" db = Normal p
      /\ EventStore.count db = Normal (k + j + p)
      /\ forall other,
           other <> "KMA" -> other <> "JMA" -> other <> "P2PQUAKE" ->
           EventStore.countBySource other db = Normal 0.
Proof.
  intros rows db. unfold EventStore.countBySource, EventStore.count, SqliteAdapter.first,
    Sql.exec_count_where, Sql.exec_count.
  cbn [db Sql.failing Sql.events bind List.head].
  eexists _, _, _. repeat split.
  - f_equal. rewrite (length_by_source rows) at 1. lia.
  - intros other Hk Hj Hp. f_equal.
    replace (List.filter (Sql.where_ [Sql.SourceEq other]) rows) with (@nil EventRecord);
      [reflexivity |].
    induction rows as [| r rows IH]; [reflexivity |].
    cbn [List.filter Sql.where_ forallb Sql.holds].
    destruct (String.eqb (source_name (source r)) other) eqn:Heq; [| exact IH].
    apply String.eqb_eq in Heq. destruct (source r); cbn in Heq; congruence.
Qed.

Lemma filter_filter_implied {A} (f g : A -> bool) (l : list A) :
  (forall a, f a = true -> g a = true) ->
  List.filter f (List.filter g l) = List.filter f l.
Proof.
  intros Himp. induction l as [| a l IH]; [reflexivity |]. cbn.
  destruct (g a) eqn:Hg; cbn.
  - now rewrite IH.
  - destruct (f a) eqn:Hf; [| exact IH]. apply Himp in Hf. congruence.
Qed.

End QueryFacts.

Section RetentionFacts.
Import JS Types.
Context {host : Host}.

(** Out of the range of dates the cut-off cannot be written: the call
    throws before any statement is run. *)
Lemma deleteOldEvents_out_of_range (daysOld now : Z) (db : Sql.Database) :
  MAX_TIME_VALUE < Z.abs (now - daysOld * 24 * 60 * 60 * 1000) ->
  EventStore.deleteOldEvents daysOld now db = Throw "RangeError: Invalid time value".
Proof.
  intros Hout. unfold EventStore.deleteOldEvents, toISOString.
  destruct (Z.leb_spec (Z.abs (now - daysOld * 24 * 60 * 60 * 1000)) MAX_TIME_VALUE);
    [lia | reflexivity].
Qed.

(** X8. When the cut-off [now - daysOld] days is a date,
    [deleteOldEvents(daysOld)] keeps exactly the rows whose [time] is
    not before the cut-off, in their order, and answers 1 through the
    adapter however many rows it removed. A query whose [since] is at
    or after the cut-off lists the same rows before and after. *)
Theorem deleteOldEvents_keeps_recent_queries :
  forall (daysOld now : Z) (query : EventStore.ListQuery) (s : string)
         (rows : list EventRecord),
    let cutoff := Date_toISOString (now - daysOld * 24 * 60 * 60 * 1000) in
    let db := {| Sql.failing := None; Sql.events := rows |} in
    Z.abs (now - daysOld * 24 * 60 * 60 * 1000) <= MAX_TIME_VALUE ->
    EventStore.since query = Some s -> s <> "" ->
    String.leb cutoff s = true ->
    exists kept,
      EventStore.deleteOldEvents daysOld now db
      = Normal (1, {| Sql.failing := None; Sql.events := kept |})
      /\ kept = List.filter (fun r => String.leb cutoff (time r)) rows
      /\ EventStore.list query {| Sql.failing := None; Sql.events := kept |}
         = EventStore.list query db.
Proof.
  intros daysOld now query s rows cutoff db Hdate Hs Hne Hle.
  exists (List.filter (fun r => String.leb cutoff (time r)) rows).
  assert (Hkept : List.filter (fun r => negb (Sql.where_ [Sql.TimeLt cutoff] r)) rows
                  = List.filter (fun r => String.leb cutoff (time r)) rows).
  { apply filter_ext. intros r. cbn. rewrite andb_true_r, String_ltb_leb.
    apply negb_involutive. }
  split; [| split; [reflexivity |]].
  - unfold EventStore.deleteOldEvents, toISOString.
    destruct (Z.leb_spec (Z.abs (now - daysOld * 24 * 60 * 60 * 1000)) MAX_TIME_VALUE);
      [| lia].
    unfold SqliteAdapter.run, Sql.exec_delete_where.
    cbn [db Sql.failing Sql.events bind fst snd SqliteAdapter.changes].
    fold cutoff. now rewrite Hkept.
  - unfold EventStore.list, SqliteAdapter.all, Sql.exec_select_where.
    cbn [db Sql.failing Sql.events bind].
    rewrite filter_filter_implied; [reflexivity |].
    intros r Hr. destruct (where_clauses_of query r Hr) as (Hsince & _).
    eapply String_leb_trans; [exact Hle | now apply (Hsince s)].
Qed.

End RetentionFacts.

Section RetentionExamples.
Import JS Types.
#[local] Existing Instance isoHost.

(** At 2024-01-31T12:00:00.000Z with [daysOld = 30] the cut-off is
    2024-01-01T12:00:00.000Z: the row of 1 January goes, the row of
    2 January stays. *)
Lemma deleteOldEvents_keeps_recent_queries_witness :
  Z.abs (1706702400000 - 30 * 24 * 60 * 60 * 1000) <= MAX_TIME_VALUE
  /\ EventStore.since Samples.since_jan2 = Some "2024-01-02" /\ "2024-01-02" <> ""
  /\ String.leb (Date_toISOString (1706702400000 - 30 * 24 * 60 * 60 * 1000)) "2024-01-02"
     = true
  /\ (exists kept,
        EventStore.deleteOldEvents 30 1706702400000
          {| Sql.failing := None; Sql.events := [Samples.evA; Samples.evB] |}
        = Normal (1, {| Sql.failing := None; Sql.events := kept |})
        /\ kept = List.filter (fun r => String.leb
                     (Date_toISOString (1706702400000 - 30 * 24 * 60 * 60 * 1000))
                     (time r)) [Samples.evA; Samples.evB]
        /\ EventStore.list Samples.since_jan2 {| Sql.failing := None; Sql.events := kept |}
           = EventStore.list Samples.since_jan2
               {| Sql.failing := None; Sql.events := [Samples.evA; Samples.evB] |})
  /\ Date_toISOString (1706702400000 - 30 * 24 * 60 * 60 * 1000) = "2024-01-01T12:00:00.000Z"
  /\ EventStore.deleteOldEvents 30 1706702400000
       {| Sql.failing := None; Sql.events := [Samples.evA; Samples.evB] |}
     = Normal (1, {| Sql.failing := None; Sql.events := [Samples.evB] |}).
Proof.
  assert (H0 : Z.abs (1706702400000 - 30 * 24 * 60 * 60 * 1000) <= MAX_TIME_VALUE)
    by (unfold MAX_TIME_VALUE; lia).
  assert (H1 : EventStore.since Samples.since_jan2 = Some "2024-01-02") by reflexivity.
  assert (H2 : "2024-01-02" <> "") by discriminate.
  assert (H3 : String.leb (Date_toISOString (1706702400000 - 30 * 24 * 60 * 60 * 1000))
                 "2024-01-02" = true) by (vm_compute; reflexivity).
  split; [exact H0 |]. split; [exact H1 |]. split; [exact H2 |]. split; [exact H3 |].
  split; [| split; vm_compute; reflexivity].
  exact (deleteOldEvents_keeps_recent_queries 30 1706702400000 Samples.since_jan2
           "2024-01-02" [Samples.evA; Samples.evB] H0 H1 H2 H3).
Defined.

End RetentionExamples.
(** ** Ingest pipeline: ring, broadcast and backup *)

Section IngestInvariants.
Import JS Types Ingest EventRoutes.
Context {host : Host}.

Lemma firstn_app_firstn {A} (n : nat) (l l' : list A) :
  firstn n (l ++ firstn n l')%list = firstn n (l ++ l')%list.
Proof.
  rewrite !List.firstn_app, List.firstn_firstn. do 2 f_equal. lia.
Qed.

Lemma handleHeartbeat_history (hb : Heartbeat) (s : IngestService) :
  (length (parserErrorHistory s) <= MAX_PARSER_ERRORS)%nat ->
  parserErrorHistory (handleHeartbeat hb s)
  = firstn MAX_PARSER_ERRORS
      (match truthy (error hb) with
       | Some e => [{| error_timestamp := lastParseTime hb; error_text := e |}]
       | None => []
       end ++ parserErrorHistory s)%list.
Proof.
  intros Hlen. unfold handleHeartbeat; cbn [parserErrorHistory].
  destruct (truthy (error hb)) as [e |].
  - cbn [app]. destruct (Nat.ltb_spec MAX_PARSER_ERRORS
                (length ({| error_timestamp := lastParseTime hb; error_text := e |}
                           :: parserErrorHistory s))); [reflexivity |].
    symmetry. now apply firstn_all2.
  - cbn [app]. symmetry. now apply firstn_all2.
Qed.

Lemma on_heartbeat_history (payload : IngestPayload) (w : World) :
  (length (parserErrorHistory (service w)) <= MAX_PARSER_ERRORS)%nat ->
  parserErrorHistory (service (on_heartbeat payload w))
  = firstn MAX_PARSER_ERRORS (error_entry payload ++ parserErrorHistory (service w))%list.
Proof.
  intros Hlen. unfold on_heartbeat, error_entry.
  destruct (heartbeat payload) as [hb |].
  - cbn [service with_service]. now apply handleHeartbeat_history.
  - cbn [app]. symmetry. now apply firstn_all2.
Qed.

Lemma post_events_history (payload : IngestPayload) (clock : nat -> Z) (w : World) :
  (length (parserErrorHistory (service w)) <= MAX_PARSER_ERRORS)%nat ->
  parserErrorHistory (service (snd (post_events payload clock w)))
  = firstn MAX_PARSER_ERRORS
      (error_entry payload ++ error_entry payload ++ parserErrorHistory (service w))%list.
Proof.
  intros Hlen. unfold post_events.
  set (w1 := on_heartbeat payload w).
  set (w2 := match events payload with
             | Some (e :: es) => handleIncomingEvents (e :: es) clock w1
             | _ => w1
             end).
  assert (H1 : parserErrorHistory (service w1)
               = firstn MAX_PARSER_ERRORS (error_entry payload ++ parserErrorHistory (service w))%list)
    by now apply on_heartbeat_history.
  assert (Hh : parserErrorHistory (service w2) = parserErrorHistory (service w1)).
  { subst w2. destruct (events payload) as [[| e es] |]; try reflexivity.
    now destruct (handleIncomingEvents_service (e :: es) clock w1) as (_ & -> & _). }
  assert (H2 : parserErrorHistory (service (on_heartbeat payload w2))
               = firstn MAX_PARSER_ERRORS
                   (error_entry payload ++ error_entry payload
                    ++ parserErrorHistory (service w))%list).
  { rewrite on_heartbeat_history.
    - rewrite Hh, H1. apply firstn_app_firstn.
    - rewrite Hh, H1, length_firstn. lia. }
  destruct (needsKmaSync (service w2) && reports_kma payload); cbn [snd]; exact H2.
Qed.

Lemma serve_history (requests : list (IngestPayload * (nat -> Z))) :
  forall w,
    (length (parserErrorHistory (service w)) <= MAX_PARSER_ERRORS)%nat ->
    parserErrorHistory (service (snd (serve requests w)))
    = firstn MAX_PARSER_ERRORS
        (rev (flat_map (fun req => error_entry (fst req) ++ error_entry (fst req)) requests)
         ++ parserErrorHistory (service w))%list.
Proof.
  induction requests as [| [payload clock] requests IH]; intros w Hlen.
  - cbn. symmetry. now apply firstn_all2.
  - cbn [serve flat_map fst].
    pose proof (post_events_history payload clock w Hlen) as Hstep.
    destruct (post_events payload clock w) as [r w1]. cbn [snd] in Hstep.
    specialize (IH w1). destruct (serve requests w1) as [rs w2]. cbn [snd] in *.
    rewrite IH; [| rewrite Hstep, length_firstn; lia].
    rewrite Hstep, firstn_app_firstn. f_equal.
    rewrite rev_app_distr, <- !app_assoc. f_equal.
    rewrite app_assoc. f_equal.
    unfold error_entry. destruct (heartbeat payload) as [hb |]; [| reflexivity].
    destruct (truthy (error hb)); reflexivity.
Qed.

(** X9. After any run of [POST /v1/events] requests against a fresh
    service, the error ring holds the ten most recent entries, newest
    first, of the errors the heartbeats carried, each request's error
    entered twice (the handler passes the heartbeat to the service
    twice). *)
Theorem error_ring_contents :
  forall requests : list (IngestPayload * (nat -> Z)),
    parserErrorHistory (service (snd (serve requests new_World)))
    = firstn MAX_PARSER_ERRORS
        (rev (flat_map (fun req => (error_entry (fst req) ++ error_entry (fst req))%list)
              requests)).
Proof.
  intros requests. rewrite serve_history; [| cbn; lia].
  cbn [new_World service new_IngestService parserErrorHistory]. now rewrite app_nil_r.
Qed.

Lemma sign_all_spec (calls : list (json * Z)) :
  forall s, Signer.key_ok s ->
    fst (Signer.sign_all calls s)
    = List.map (fun c =>
        {| Signer.payload := JSON_stringify Number_toString (fst c);
           Signer.signature :=
             btoa (Ed25519_sign (Ed25519_importKey (Signer.d Signer.PRIVATE_KEY_JWK))
                     (TextEncoder_encode (JSON_stringify Number_toString (fst c))));
           Signer.timestamp := snd c |}) calls.
Proof.
  induction calls as [| [data now] calls IH]; intros s Hs; [reflexivity |].
  cbn [Signer.sign_all].
  destruct (sign_ok data now s Hs) as [Hr Hs1].
  destruct (Signer.sign data now s) as [r s1]. cbn [fst snd] in Hr, Hs1.
  specialize (IH s1 Hs1). destruct (Signer.sign_all calls s1) as [rs s2].
  cbn [fst] in *. now rewrite Hr, IH.
Qed.

(** X10. On a working store and with the embedded key, a non-empty
    batch is broadcast exactly once, as one message that holds as many
    envelopes as the batch has events; in each envelope the signature
    is the base64 text of the Ed25519 signature, under the embedded
    key, of the bytes of that envelope's own payload. The signer keeps
    the embedded key. *)
Theorem broadcast_is_signed_batch :
  forall (e : EventRecord) (es : list EventRecord) (clock : nat -> Z) (w : World),
    Sql.failing (db w) = None ->
    Signer.key_ok (signer w) ->
    let w' := handleIncomingEvents (e :: es) clock w in
    exists signed,
      outbox w' = (outbox w ++ [signed])%list
      /\ length signed = length (e :: es)
      /\ Forall (fun envelope =>
                   Signer.signature envelope
                   = btoa (Ed25519_sign
                             (Ed25519_importKey (Signer.d Signer.PRIVATE_KEY_JWK))
                             (TextEncoder_encode (Signer.payload envelope)))) signed
      /\ Signer.key_ok (signer w').
Proof.
  intros e es clock w Hok Hkey w'. subst w'. unfold handleIncomingEvents.
  destruct (db w) as [failing rows] eqn:Hdb. cbn [Sql.failing] in Hok. subst failing.
  destruct (insert_returns_batch_size (e :: es) rows) as (rows' & Hins).
  rewrite Hins.
  destruct (Z.ltb_spec 0 (Z.of_nat (length (e :: es)))) as [_ | Hle]; [| cbn [length] in Hle; lia].
  set (calls := combine (List.map EventRecord_json (e :: es))
                        (List.map clock (seq 1 (length (e :: es))))).
  assert (Hcalls : length calls = length (e :: es)).
  { subst calls. rewrite length_combine, !length_map, length_seq. lia. }
  pose proof (sign_all_spec calls (signer w) Hkey) as Hsigned.
  pose proof (sign_all_ok calls (signer w) Hkey) as Hkey'.
  destruct (Signer.sign_all calls (signer w)) as [signed signer1].
  cbn [fst snd] in Hsigned, Hkey'.
  exists signed.
  assert (Hshape : length signed = length (e :: es)
                   /\ Forall (fun envelope =>
                                Signer.signature envelope
                                = btoa (Ed25519_sign
                                          (Ed25519_importKey (Signer.d Signer.PRIVATE_KEY_JWK))
                                          (TextEncoder_encode (Signer.payload envelope))))
                        signed).
  { rewrite Hsigned, length_map. split; [exact Hcalls |].
    apply List.Forall_forall. intros envelope Hin. apply in_map_iff in Hin.
    destruct Hin as (c & <- & _). reflexivity. }
  destruct Hshape as [Hlen Hall].
  destruct (EventStore.list_recent 1000 _); cbn [outbox signer]; repeat split; auto.
Qed.

Lemma list_recent_spec (n : nat) (rows : list EventRecord) :
  EventStore.list_recent n {| Sql.failing := None; Sql.events := rows |}
  = Normal (firstn n (Sql.order_by_time_desc rows)).
Proof.
  unfold EventStore.list_recent, SqliteAdapter.all, Sql.exec_select_recent.
  cbn [Sql.failing Sql.events bind]. now rewrite map_deserialize.
Qed.

(** X11. On a working store, a non-empty batch schedules exactly one
    backup projection. It holds at most 1000 stored rows, newest first,
    so [saveProjection] cuts nothing from it; when the store holds at
    most 1000 rows it is the whole store. *)
Theorem backup_projection_is_recent_store :
  forall (e : EventRecord) (es : list EventRecord) (clock : nat -> Z) (w : World),
    Sql.failing (db w) = None ->
    let w' := handleIncomingEvents (e :: es) clock w in
    exists projection,
      scheduled w' = (scheduled w ++ [projection])%list
      /\ (length projection <= 1000)%nat
      /\ BackupService.projected projection = projection
      /\ Sql.newest_first projection
      /\ (forall r, In r projection -> In r (Sql.events (db w')))
      /\ ((length (Sql.events (db w')) <= 1000)%nat ->
          Permutation (Sql.events (db w')) projection).
Proof.
  intros e es clock w Hok w'. subst w'. unfold handleIncomingEvents.
  destruct (db w) as [failing rows] eqn:Hdb. cbn [Sql.failing] in Hok. subst failing.
  destruct (insert_returns_batch_size (e :: es) rows) as (rows' & Hins).
  rewrite Hins.
  destruct (Z.ltb_spec 0 (Z.of_nat (length (e :: es)))) as [_ | Hle]; [| cbn [length] in Hle; lia].
  destruct (Signer.sign_all _ (signer w)) as [signed signer1].
  rewrite list_recent_spec. cbn [scheduled db Sql.events].
  exists (firstn 1000 (Sql.order_by_time_desc rows')).
  pose proof (order_by_time_desc_sorted rows') as Hs.
  pose proof (order_by_time_desc_perm rows') as Hp.
  split; [reflexivity |]. split; [rewrite length_firstn; lia |].
  split; [unfold BackupService.projected; apply List.firstn_firstn |].
  split; [| split].
  - unfold Sql.newest_first in *.
    rewrite <- (firstn_skipn 1000 (Sql.order_by_time_desc rows')) in Hs.
    clear Hp. induction (firstn 1000 (Sql.order_by_time_desc rows')) as [| x l IHl].
    + constructor.
    + cbn in Hs. apply StronglySorted_inv in Hs. destruct Hs as [Hs Hx].
      constructor; [now apply IHl |].
      rewrite List.Forall_forall in *. intros y Hy. apply Hx. apply in_or_app. now left.
  - intros r Hr. apply (Permutation_in (l := Sql.order_by_time_desc rows'));
      [now symmetry |].
    rewrite <- (firstn_skipn 1000 (Sql.order_by_time_desc rows')). apply in_or_app. now left.
  - intros Hlen. rewrite firstn_all2; [exact Hp |].
    rewrite <- (Permutation_length Hp). exact Hlen.
Qed.

(** X12. When the store rejects the statements, the failure is swallowed:
    [POST /v1/events] still answers 200 or 204, nothing is broadcast,
    no backup is scheduled, [lastStoredAt] and the store stay as they
    were, and the heartbeat is recorded all the same. *)
Theorem failed_store_is_silent :
  forall (payload : IngestPayload) (clock : nat -> Z) (w : World) (err : string),
    Sql.failing (db w) = Some err ->
    let r := post_events payload clock w in
    (status (fst r) = 200 \/ status (fst r) = 204)
    /\ outbox (snd r) = outbox w
    /\ scheduled (snd r) = scheduled w
    /\ db (snd r) = db w
    /\ lastStoredAt (service (snd r)) = lastStoredAt (service w)
    /\ (forall hb, heartbeat payload = Some hb ->
          parserHeartbeat (service (snd r)) = Some hb).
Proof.
  intros payload clock w err Hfail r. subst r. unfold post_events.
  set (w1 := on_heartbeat payload w).
  assert (Hw1 : db w1 = db w /\ outbox w1 = outbox w /\ scheduled w1 = scheduled w
                /\ lastStoredAt (service w1) = lastStoredAt (service w)).
  { subst w1. unfold on_heartbeat. destruct (heartbeat payload); cbn; auto. }
  destruct Hw1 as (Hdb1 & Hout1 & Hsch1 & Hls1).
  assert (Hw2 : match events payload with
                | Some (e :: es) => handleIncomingEvents (e :: es) clock w1
                | _ => w1
                end = w1).
  { destruct (events payload) as [[| e es] |]; try reflexivity.
    unfold handleIncomingEvents.
    assert (Hins : exists msg, EventStore.insert (e :: es) (db w1) = Throw msg).
    { rewrite Hdb1. unfold EventStore.insert, EventStore.insert_loop, SqliteAdapter.run,
        Sql.exec_insert_or_ignore. rewrite Hfail. cbn. eauto. }
    destruct Hins as [msg ->]. reflexivity. }
  rewrite Hw2.
  assert (Hw3 : db (on_heartbeat payload w1) = db w
                /\ outbox (on_heartbeat payload w1) = outbox w
                /\ scheduled (on_heartbeat payload w1) = scheduled w
                /\ lastStoredAt (service (on_heartbeat payload w1)) = lastStoredAt (service w)
                /\ (forall hb, heartbeat payload = Some hb ->
                      parserHeartbeat (service (on_heartbeat payload w1)) = Some hb)).
  { unfold on_heartbeat at 1 2 3 4 5. destruct (heartbeat payload) as [hb |]; cbn.
    - repeat split; auto; congruence.
    - repeat split; auto; discriminate. }
  destruct (needsKmaSync (service w1) && reports_kma payload); cbn [fst snd status];
    (split; [auto |]); destruct Hw3 as (Ha & Hb & Hc & Hd & He); auto.
Qed.

End IngestInvariants.

Section IngestInvariantsExamples.
Import JS Types Ingest EventRoutes.
#[local] Existing Instance exampleHost.

Lemma broadcast_is_signed_batch_witness :
  Sql.failing (db new_World) = None
  /\ Signer.key_ok (signer new_World)
  /\ exists signed,
      outbox (handleIncomingEvents [Samples.evA; Samples.evB] Z.of_nat new_World)
      = (outbox new_World ++ [signed])%list
      /\ length signed = length [Samples.evA; Samples.evB]
      /\ Forall (fun envelope =>
                   Signer.signature envelope
                   = btoa (Ed25519_sign
                             (Ed25519_importKey (Signer.d Signer.PRIVATE_KEY_JWK))
                             (TextEncoder_encode (Signer.payload envelope)))) signed
      /\ Signer.key_ok
           (signer (handleIncomingEvents [Samples.evA; Samples.evB] Z.of_nat new_World)).
Proof.
  assert (H1 : Sql.failing (db new_World) = None) by reflexivity.
  assert (H2 : Signer.key_ok (signer new_World)) by (left; reflexivity).
  split; [exact H1 |]. split; [exact H2 |].
  exact (broadcast_is_signed_batch Samples.evA [Samples.evB] Z.of_nat new_World H1 H2).
Defined.

Lemma backup_projection_is_recent_store_witness :
  Sql.failing (db new_World) = None
  /\ exists projection,
      scheduled (handleIncomingEvents [Samples.evA; Samples.evB] Z.of_nat new_World)
      = (scheduled new_World ++ [projection])%list
      /\ (length projection <= 1000)%nat
      /\ BackupService.projected projection = projection
      /\ Sql.newest_first projection
      /\ (forall r, In r projection ->
            In r (Sql.events
                    (db (handleIncomingEvents [Samples.evA; Samples.evB] Z.of_nat new_World))))
      /\ ((length (Sql.events
                     (db (handleIncomingEvents [Samples.evA; Samples.evB] Z.of_nat new_World)))
           <= 1000)%nat ->
          Permutation
            (Sql.events
               (db (handleIncomingEvents [Samples.evA; Samples.evB] Z.of_nat new_World)))
            projection).
Proof.
  assert (H1 : Sql.failing (db new_World) = None) by reflexivity.
  split; [exact H1 |].
  exact (backup_projection_is_recent_store Samples.evA [Samples.evB] Z.of_nat new_World H1).
Defined.

Lemma failed_store_is_silent_witness :
  Sql.failing (db Samples.broken_world) = Some "disk I/O error"
  /\ (status (fst (post_events Samples.beat_and_event Z.of_nat Samples.broken_world)) = 200
      \/ status (fst (post_events Samples.beat_and_event Z.of_nat Samples.broken_world)) = 204)
  /\ outbox (snd (post_events Samples.beat_and_event Z.of_nat Samples.broken_world))
     = outbox Samples.broken_world
  /\ scheduled (snd (post_events Samples.beat_and_event Z.of_nat Samples.broken_world))
     = scheduled Samples.broken_world
  /\ db (snd (post_events Samples.beat_and_event Z.of_nat Samples.broken_world))
     = db Samples.broken_world
  /\ lastStoredAt (service (snd (post_events Samples.beat_and_event Z.of_nat
                                   Samples.broken_world)))
     = lastStoredAt (service Samples.broken_world)
  /\ (forall hb, heartbeat Samples.beat_and_event = Some hb ->
        parserHeartbeat (service (snd (post_events Samples.beat_and_event Z.of_nat
                                         Samples.broken_world)))
        = Some hb).
Proof.
  assert (H1 : Sql.failing (db Samples.broken_world) = Some "disk I/O error") by reflexivity.
  split; [exact H1 |].
  exact (failed_store_is_silent Samples.beat_and_event Z.of_nat Samples.broken_world
           "disk I/O error" H1).
Defined.

End IngestInvariantsExamples.
